(** * Name resolution over the Concerto metamodel

  A shallow embedding of [lib/introspect/metamodel.js] (class [MetaModel]):
  the name table builder [createNameTable], the lookup [resolveName], the
  recursive pass [resolveTypeNames] and the orchestrator [resolveMetaModel].

  The JSON trees handled by the code are typed after the concepts declared
  in [metaModelCto]; a field the schema marks [optional] is an [option],
  and reading through an absent field raises [TypeError] as it does in
  JavaScript.  The name table is a JavaScript object used as a dictionary:
  the finite map of its own properties, read and written as a plain object
  is, through the properties of [Object.prototype]. *)

From Stdlib Require Import ZArith String List.
From stdpp Require Import base option list strings gmap.

Set Default Proof Using "Type".

(** ** Data model: the concepts of [metaModelCto] *)

Module Schema.

(** A JSON number holding a [Double]: a finite value [mantissa * 2^exponent].
    (JSON has no NaN or infinity, and prints a negative zero as [0].) *)
Record Double := mkDouble
  { mantissa : Z; exponent : Z }.

Record Position := mkPosition
  { line : Z; column : Z; offset : Z }.

Record Range := mkRange
  { start : Position; end_ : Position; source : option string }.

(** What a property read [table[name]] of the name table gives, and what
    the [namespace] field of a type identifier then holds: a string, or
    the value [Object.prototype] has under [key] (a method of every object
    or, for [__proto__], the prototype itself). *)
Inductive JsValue :=
| VString (s : string)
| VInherited (key : string).

Coercion VString : string >-> JsValue.

Record TypeIdentifier := mkTypeIdentifier
  { ti_name : string; ti_namespace : option JsValue }.

Inductive DecoratorLiteral :=
| DecoratorString (location : option Range) (value : string)
| DecoratorNumber (location : option Range) (value : Double)
| DecoratorBoolean (location : option Range) (value : bool)
| DecoratorTypeReference (location : option Range)
                         (type : TypeIdentifier) (isArray : bool).

Record Decorator := mkDecorator
  { dec_name : string;
    dec_arguments : option (list DecoratorLiteral);
    dec_location : option Range }.

Inductive Identified :=
| IsIdentified
| IdentifiedBy (name : string).

Record EnumProperty := mkEnumProperty
  { ep_name : string;
    ep_decorators : option (list Decorator);
    ep_location : option Range }.

Record StringRegexValidator := mkStringRegexValidator
  { pattern : string; flags : string }.

Record DoubleDomainValidator := mkDoubleDomainValidator
  { dd_lower : option Double; dd_upper : option Double }.

Record IntegerDomainValidator := mkIntegerDomainValidator
  { id_lower : option Z; id_upper : option Z }.

Record LongDomainValidator := mkLongDomainValidator
  { ld_lower : option Z; ld_upper : option Z }.

(** The concrete sub-concepts of [Property], with the fields each adds. *)
Inductive PropertyKind :=
| RelationshipProperty (type : TypeIdentifier)
| ObjectProperty (defaultValue : option string) (type : TypeIdentifier)
| BooleanProperty (defaultValue : option bool)
| DateTimeProperty
| StringProperty (defaultValue : option string)
                 (validator : option StringRegexValidator)
| DoubleProperty (defaultValue : option Double)
                 (validator : option DoubleDomainValidator)
| IntegerProperty (defaultValue : option Z)
                  (validator : option IntegerDomainValidator)
| LongProperty (defaultValue : option Z)
               (validator : option LongDomainValidator).

Record Property := mkProperty
  { p_name : string;
    p_isArray : bool;
    p_isOptional : bool;
    p_decorators : option (list Decorator);
    p_location : option Range;
    p_kind : PropertyKind }.

Record EnumDeclaration := mkEnumDeclaration
  { ed_name : string;
    ed_decorators : option (list Decorator);
    ed_location : option Range;
    ed_properties : list EnumProperty }.

(** [ConceptDeclaration] and its four empty extensions share all their
    fields and differ by their [$class] only. *)
Inductive ConceptClass :=
| ConceptDeclaration
| AssetDeclaration
| ParticipantDeclaration
| TransactionDeclaration
| EventDeclaration.

Record ClassDeclaration := mkClassDeclaration
  { cd_class : ConceptClass;
    cd_name : string;
    cd_decorators : option (list Decorator);
    cd_location : option Range;
    cd_isAbstract : bool;
    cd_identified : option Identified;
    cd_superType : option TypeIdentifier;
    cd_properties : list Property }.

Inductive Declaration :=
| DeclEnum (d : EnumDeclaration)
| DeclClass (d : ClassDeclaration).

Inductive Import :=
| ImportAll (namespace : string) (uri : option string)
| ImportType (namespace : string) (uri : option string) (name : string).

Record Model := mkModel
  { namespace : string;
    sourceUri : option string;
    concertoVersion : option string;
    imports : option (list Import);
    declarations : option (list Declaration) }.

(** The objects [resolveTypeNames] can be handed: any instance of a
    concept of the metamodel. *)
Inductive Node :=
| NModels (models : list Model)
| NModel (m : Model)
| NImport (i : Import)
| NDeclaration (d : Declaration)
| NProperty (p : Property)
| NEnumProperty (p : EnumProperty)
| NDecorator (d : Decorator)
| NDecoratorLiteral (l : DecoratorLiteral)
| NTypeIdentifier (t : TypeIdentifier).

(** *** Field reads used by the code *)

Definition imp_namespace (imp : Import) : string :=
  match imp with
  | ImportAll ns _ => ns
  | ImportType ns _ _ => ns
  end.

Definition decl_name (decl : Declaration) : string :=
  match decl with
  | DeclEnum d => ed_name d
  | DeclClass d => cd_name d
  end.

(** [metaModel.type] on a property: present on the two kinds that declare
    it, [undefined] on the others. *)
Definition p_type (p : Property) : option TypeIdentifier :=
  match p_kind p with
  | RelationshipProperty ty => Some ty
  | ObjectProperty _ ty => Some ty
  | _ => None
  end.

(** [EnumProperty] declares no [type] field. *)
Definition ep_type (p : EnumProperty) : option TypeIdentifier := None.

(** *** Field writes (the code assigns [namespace] in place; the fields
    holding the visited children are rebuilt around it) *)

Definition set_ti_namespace (ns : JsValue) (t : TypeIdentifier) : TypeIdentifier :=
  {| ti_name := ti_name t; ti_namespace := Some ns |}.

Definition set_dec_arguments (args : option (list DecoratorLiteral))
    (d : Decorator) : Decorator :=
  {| dec_name := dec_name d; dec_arguments := args;
     dec_location := dec_location d |}.

Definition set_p_type (ty : TypeIdentifier) (p : Property) : Property :=
  {| p_name := p_name p; p_isArray := p_isArray p;
     p_isOptional := p_isOptional p; p_decorators := p_decorators p;
     p_location := p_location p;
     p_kind := match p_kind p with
               | RelationshipProperty _ => RelationshipProperty ty
               | ObjectProperty dv _ => ObjectProperty dv ty
               | k => k
               end |}.

Definition set_p_decorators (ds : option (list Decorator)) (p : Property) : Property :=
  {| p_name := p_name p; p_isArray := p_isArray p;
     p_isOptional := p_isOptional p; p_decorators := ds;
     p_location := p_location p; p_kind := p_kind p |}.

Definition set_ep_type (ty : TypeIdentifier) (p : EnumProperty) : EnumProperty := p.

Definition set_ep_decorators (ds : option (list Decorator)) (p : EnumProperty)
    : EnumProperty :=
  {| ep_name := ep_name p; ep_decorators := ds; ep_location := ep_location p |}.

Definition set_ed_decorators (ds : option (list Decorator)) (d : EnumDeclaration)
    : EnumDeclaration :=
  {| ed_name := ed_name d; ed_decorators := ds;
     ed_location := ed_location d; ed_properties := ed_properties d |}.

Definition set_cd_superType (st : option TypeIdentifier) (d : ClassDeclaration)
    : ClassDeclaration :=
  {| cd_class := cd_class d; cd_name := cd_name d;
     cd_decorators := cd_decorators d; cd_location := cd_location d;
     cd_isAbstract := cd_isAbstract d; cd_identified := cd_identified d;
     cd_superType := st; cd_properties := cd_properties d |}.

Definition set_cd_properties (ps : list Property) (d : ClassDeclaration)
    : ClassDeclaration :=
  {| cd_class := cd_class d; cd_name := cd_name d;
     cd_decorators := cd_decorators d; cd_location := cd_location d;
     cd_isAbstract := cd_isAbstract d; cd_identified := cd_identified d;
     cd_superType := cd_superType d; cd_properties := ps |}.

Definition set_cd_decorators (ds : option (list Decorator)) (d : ClassDeclaration)
    : ClassDeclaration :=
  {| cd_class := cd_class d; cd_name := cd_name d;
     cd_decorators := ds; cd_location := cd_location d;
     cd_isAbstract := cd_isAbstract d; cd_identified := cd_identified d;
     cd_superType := cd_superType d; cd_properties := cd_properties d |}.

Definition set_declarations (ds : option (list Declaration)) (m : Model) : Model :=
  {| namespace := namespace m; sourceUri := sourceUri m;
     concertoVersion := concertoVersion m; imports := imports m;
     declarations := ds |}.

(** *** The [$class] discriminator *)

Definition metamodel (short : string) : string := "concerto.metamodel." +:+ short.

Definition class_of_literal (l : DecoratorLiteral) : string :=
  match l with
  | DecoratorString _ _ => metamodel "DecoratorString"
  | DecoratorNumber _ _ => metamodel "DecoratorNumber"
  | DecoratorBoolean _ _ => metamodel "DecoratorBoolean"
  | DecoratorTypeReference _ _ _ => metamodel "DecoratorTypeReference"
  end.

Definition class_of_property (p : Property) : string :=
  match p_kind p with
  | RelationshipProperty _ => metamodel "RelationshipProperty"
  | ObjectProperty _ _ => metamodel "ObjectProperty"
  | BooleanProperty _ => metamodel "BooleanProperty"
  | DateTimeProperty => metamodel "DateTimeProperty"
  | StringProperty _ _ => metamodel "StringProperty"
  | DoubleProperty _ _ => metamodel "DoubleProperty"
  | IntegerProperty _ _ => metamodel "IntegerProperty"
  | LongProperty _ _ => metamodel "LongProperty"
  end.

Definition class_of_concept (c : ConceptClass) : string :=
  match c with
  | ConceptDeclaration => metamodel "ConceptDeclaration"
  | AssetDeclaration => metamodel "AssetDeclaration"
  | ParticipantDeclaration => metamodel "ParticipantDeclaration"
  | TransactionDeclaration => metamodel "TransactionDeclaration"
  | EventDeclaration => metamodel "EventDeclaration"
  end.

Definition class_of_declaration (d : Declaration) : string :=
  match d with
  | DeclEnum _ => metamodel "EnumDeclaration"
  | DeclClass d => class_of_concept (cd_class d)
  end.

Definition class_of (n : Node) : string :=
  match n with
  | NModels _ => metamodel "Models"
  | NModel _ => metamodel "Model"
  | NImport (ImportAll _ _) => metamodel "ImportAll"
  | NImport (ImportType _ _ _) => metamodel "ImportType"
  | NDeclaration d => class_of_declaration d
  | NProperty p => class_of_property p
  | NEnumProperty _ => metamodel "EnumProperty"
  | NDecorator _ => metamodel "Decorator"
  | NDecoratorLiteral l => class_of_literal l
  | NTypeIdentifier _ => metamodel "TypeIdentifier"
  end.

End Schema.
Export Schema.

(** ** Effects: exceptions and in-place update *)

(** The exceptions the code can raise: [new Error(message)], and the
    [TypeError] of the runtime when a property is read from [undefined]. *)
Inductive Error :=
| JsError (message : string)
| TypeError.

(** A call that returns a value or throws. *)
Inductive Result (A : Type) :=
| Return (a : A)
| Throw (e : Error).
Arguments Return {A} & a.
Arguments Throw {A} e.

(** A call that updates the object it is given in place.  [after] is the
    object as the call leaves it, also when it throws (what was assigned
    before the exception stays assigned); [thrown] is the pending exception;
    [visited] lists the [$class] of every object on which
    [resolveTypeNames] was entered, in call order. *)
Record Outcome (A : Type) := mkOutcome
  { after : A; thrown : option Error; visited : list string }.
Arguments mkOutcome {A} after thrown visited.
Arguments after {A} o.
Arguments thrown {A} o.
Arguments visited {A} o.

Definition Mut (A : Type) : Type := A -> Outcome A.

Module Mut.

Definition skip {A} : Mut A :=
  fun a => mkOutcome a None [].

Definition raise {A} (e : Error) : Mut A :=
  fun a => mkOutcome a (Some e) [].

(** Entering [resolveTypeNames] on an object of class [cls]. *)
Definition enter {A} (cls : string) : Mut A :=
  fun a => mkOutcome a None [cls].

(** Statement sequencing: an exception in [f] skips [g]. *)
Definition seq {A} (f g : Mut A) : Mut A :=
  fun a =>
    let o := f a in
    match thrown o with
    | Some _ => o
    | None =>
        let o' := g (after o) in
        mkOutcome (after o') (thrown o') (visited o ++ visited o')
    end.

(** Running [f] on the object held by a field. *)
Definition field {A B} (get : A -> B) (set : B -> A -> A) (f : Mut B) : Mut A :=
  fun a =>
    let o := f (get a) in
    mkOutcome (set (after o) a) (thrown o) (visited o).

(** Dereferencing a field that may be [undefined]. *)
Definition deref {A B} (get : A -> option B) (set : B -> A -> A) (f : Mut B) : Mut A :=
  fun a =>
    match get a with
    | None => raise TypeError a
    | Some b =>
        let o := f b in
        mkOutcome (set (after o) a) (thrown o) (visited o)
    end.

(** [if (x) { f(x) }] on an optional object or array. *)
Definition whenPresent {B} (f : Mut B) : Mut (option B) :=
  fun ob =>
    match ob with
    | None => skip None
    | Some b =>
        let o := f b in
        mkOutcome (Some (after o)) (thrown o) (visited o)
    end.

(** [array.forEach(f)]: the elements after the one that throws are left
    as they were. *)
Fixpoint forEach {B} (f : Mut B) (l : list B) : Outcome (list B) :=
  match l with
  | [] => skip []
  | x :: xs =>
      let o := f x in
      match thrown o with
      | Some e => mkOutcome (after o :: xs) (Some e) (visited o)
      | None =>
          let o' := forEach f xs in
          mkOutcome (after o :: after o') (thrown o') (visited o ++ visited o')
      end
  end.

(** Running [f] under a constructor of a sum of classes. *)
Definition under {A B} (wrap : B -> A) (f : Mut B) (b : B) : Outcome A :=
  let o := f b in mkOutcome (wrap (after o)) (thrown o) (visited o).

End Mut.

Notation "f ;;; g" := (Mut.seq f g) (at level 62, right associativity).

(** ** The name table and [resolveName] *)

(** The table is the object literal of [createNameTable]: a plain object,
    whose prototype is [Object.prototype].  [NameTable] holds its own
    properties, all of them strings. *)
Abbreviation NameTable := (gmap string string).

(** The property names of [Object.prototype]. *)
Definition prototypeKeys : list string :=
  ["constructor"; "__defineGetter__"; "__defineSetter__"; "hasOwnProperty";
   "__lookupGetter__"; "__lookupSetter__"; "isPrototypeOf";
   "propertyIsEnumerable"; "toString"; "valueOf"; "__proto__";
   "toLocaleString"].

Definition inherited (name : string) : bool :=
  bool_decide (name ∈ prototypeKeys).

(** The read [table[name]]: the table's own property, else the property
    [Object.prototype] has under that name, else [undefined]. *)
Definition tableGet (table : NameTable) (name : string) : option JsValue :=
  match table !! name with
  | Some ns => Some (VString ns)
  | None => if inherited name then Some (VInherited name) else None
  end.

(** The write [table[name] = ns] of a string.  Under [__proto__] a plain
    object has the accessor of [Object.prototype], whose setter ignores a
    string: nothing is stored (an own property [__proto__], which no write
    of this file creates, would be written).  Every other name becomes an
    own property. *)
Definition tableSet (name ns : string) (table : NameTable) : NameTable :=
  if bool_decide (name = "__proto__") && negb (bool_decide (is_Some (table !! name)))
  then table
  else <[name := ns]> table.

(** [table[name]] is tested for truthiness: [undefined] and the empty
    string are falsy, an inherited method or object is truthy. *)
Definition truthy (v : option JsValue) : bool :=
  match v with
  | Some (VString s) => negb (String.eqb s "")
  | Some (VInherited _) => true
  | None => false
  end.

Definition resolveName (name : string) (table : NameTable) : Result JsValue :=
  if negb (truthy (tableGet table name)) then
    Throw (JsError ("Name " +:+ name +:+ " not found"))
  else
    (* [return table[name]]: a truthy value was read *)
    match tableGet table name with
    | Some ns => Return ns
    | None => Throw TypeError
    end.

(** ** [resolveTypeNames] *)

(** The statement pair
    [const name = x.type.name; x.type.namespace = resolveName(name, table)]
    seen from the type identifier [x.type] (or [x.superType]). *)
Definition assignNamespace (table : NameTable) : Mut TypeIdentifier :=
  fun type =>
    let name := ti_name type in
    match resolveName name table with
    | Return ns => Mut.skip (set_ti_namespace ns type)
    | Throw e => Mut.raise e type
    end.

(** [case DecoratorTypeReference]; the other literals match no case. *)
Definition resolveTypeNames_DecoratorLiteral (table : NameTable) : Mut DecoratorLiteral :=
  fun metaModel =>
    match metaModel with
    | DecoratorTypeReference location type isArray =>
        (Mut.enter (class_of_literal metaModel) ;;;
         Mut.field (fun _ => type)
                   (fun ty _ => DecoratorTypeReference location ty isArray)
                   (assignNamespace table)) metaModel
    | _ => Mut.enter (class_of_literal metaModel) metaModel
    end.

(** [case Decorator]. *)
Definition resolveTypeNames_Decorator (table : NameTable) : Mut Decorator :=
  Mut.enter (metamodel "Decorator") ;;;
  Mut.field dec_arguments set_dec_arguments
    (Mut.whenPresent (Mut.forEach (resolveTypeNames_DecoratorLiteral table))).

(** The body shared by [case EnumProperty], [case ObjectProperty] and
    [case RelationshipProperty]. *)
Definition resolveTypeNames_typed {A}
    (type : A -> option TypeIdentifier) (set_type : TypeIdentifier -> A -> A)
    (decorators : A -> option (list Decorator))
    (set_decorators : option (list Decorator) -> A -> A)
    (table : NameTable) : Mut A :=
  Mut.deref type set_type (assignNamespace table) ;;;
  Mut.field decorators set_decorators
    (Mut.whenPresent (Mut.forEach (resolveTypeNames_Decorator table))).

Definition resolveTypeNames_EnumProperty (table : NameTable) : Mut EnumProperty :=
  Mut.enter (metamodel "EnumProperty") ;;;
  resolveTypeNames_typed ep_type set_ep_type ep_decorators set_ep_decorators table.

(** The objects of the eight [Property] classes: two of them have a case,
    the six primitive ones have none. *)
Definition resolveTypeNames_Property (table : NameTable) : Mut Property :=
  fun metaModel =>
    match p_kind metaModel with
    | ObjectProperty _ _
    | RelationshipProperty _ =>
        (Mut.enter (class_of_property metaModel) ;;;
         resolveTypeNames_typed p_type set_p_type p_decorators set_p_decorators table)
          metaModel
    | _ => Mut.enter (class_of_property metaModel) metaModel
    end.

(** [case EnumDeclaration]. *)
Definition resolveTypeNames_EnumDeclaration (table : NameTable) : Mut EnumDeclaration :=
  Mut.enter (metamodel "EnumDeclaration") ;;;
  Mut.field ed_decorators set_ed_decorators
    (Mut.whenPresent (Mut.forEach (resolveTypeNames_Decorator table))).

(** The case shared by [AssetDeclaration], [ConceptDeclaration],
    [EventDeclaration], [TransactionDeclaration] and
    [ParticipantDeclaration]. *)
Definition resolveTypeNames_ClassDeclaration (table : NameTable) : Mut ClassDeclaration :=
  fun metaModel =>
    (Mut.enter (class_of_concept (cd_class metaModel)) ;;;
     Mut.field cd_superType set_cd_superType
       (Mut.whenPresent (assignNamespace table)) ;;;
     Mut.field cd_properties set_cd_properties
       (Mut.forEach (resolveTypeNames_Property table)) ;;;
     Mut.field cd_decorators set_cd_decorators
       (Mut.whenPresent (Mut.forEach (resolveTypeNames_Decorator table))))
      metaModel.

Definition resolveTypeNames_Declaration (table : NameTable) : Mut Declaration :=
  fun metaModel =>
    match metaModel with
    | DeclEnum d => Mut.under DeclEnum (resolveTypeNames_EnumDeclaration table) d
    | DeclClass d => Mut.under DeclClass (resolveTypeNames_ClassDeclaration table) d
    end.

(** [case Model]. *)
Definition resolveTypeNames_Model (table : NameTable) : Mut Model :=
  Mut.enter (metamodel "Model") ;;;
  Mut.field declarations set_declarations
    (Mut.whenPresent (Mut.forEach (resolveTypeNames_Declaration table))).

(** The [switch (metaModel.$class)]: the recursive calls are the functions
    above, one per class of object reached; an object whose class has no
    case is returned as it is. *)
Definition resolveTypeNames (metaModel : Node) (table : NameTable) : Outcome Node :=
  match metaModel with
  | NModel m => Mut.under NModel (resolveTypeNames_Model table) m
  | NDeclaration d => Mut.under NDeclaration (resolveTypeNames_Declaration table) d
  | NEnumProperty p => Mut.under NEnumProperty (resolveTypeNames_EnumProperty table) p
  | NProperty p => Mut.under NProperty (resolveTypeNames_Property table) p
  | NDecorator d => Mut.under NDecorator (resolveTypeNames_Decorator table) d
  | NDecoratorLiteral l =>
      Mut.under NDecoratorLiteral (resolveTypeNames_DecoratorLiteral table) l
  | NModels _ | NImport _ | NTypeIdentifier _ =>
      Mut.enter (class_of metaModel) metaModel
  end.

(** ** Calls that read or write a state and may throw *)

Definition Prog (S A : Type) : Type := S -> S * Result A.

#[export] Instance Prog_ret {S} : MRet (Prog S) :=
  fun A a s => (s, Return a).

#[export] Instance Prog_bind {S} : MBind (Prog S) :=
  fun A B k c s =>
    match c s with
    | (s', Return a) => k a s'
    | (s', Throw e) => (s', Throw e)
    end.

Definition throw {S A} (e : Error) : Prog S A :=
  fun s => (s, Throw e).

Definition gets {S A} (f : S -> A) : Prog S A :=
  fun s => (s, Return (f s)).

Definition modify {S} (f : S -> S) : Prog S unit :=
  fun s => (f s, Return tt).

(** [array.forEach(step)] where [step] updates an accumulator. *)
Fixpoint forEachM {S A B} (step : B -> A -> Prog S A) (l : list B) (acc : A)
    : Prog S A :=
  match l with
  | [] => mret acc
  | x :: xs => acc' ← step x acc; forEachM step xs acc'
  end.

(** ** The registry *)

(** Modelled from the spec: the namespace registry ([ModelManager] and its
    [ModelFile]s, which this file requires but does not define).  The spec
    gives it two queries, answered for every namespace:
    [hasLocalDeclaration(namespace, name) -> bool] and
    [localDeclarationNames(namespace) -> ordered sequence of string]; it
    reads them off the calls [getModelFile(namespace)],
    [modelFile.getLocalType(name)] and
    [modelFile.getAllDeclarations()] / [decl.getName()] of the code.  A
    model file is represented by the names of its local declarations, in
    order. *)
Record ModelFile := mkModelFile
  { localDeclarationNames : list string }.

Definition ModelManager : Type := string -> ModelFile.

(** [modelManager.getModelFile(namespace)]: a query on the registry. *)
Definition getModelFile (namespace : string) : Prog ModelManager ModelFile :=
  gets (fun modelManager => modelManager namespace).

(** Truthiness of [modelFile.getLocalType(name)]. *)
Definition getLocalType (modelFile : ModelFile) (name : string) : bool :=
  bool_decide (name ∈ localDeclarationNames modelFile).

(** The names [decl.getName()] of [modelFile.getAllDeclarations()]. *)
Definition getAllDeclarations (modelFile : ModelFile) : list string :=
  localDeclarationNames modelFile.

(** ** [createNameTable] *)

Definition builtinTable : NameTable :=
  <["Event" := "concerto"]>
  (<["Transaction " := "concerto"]>
  (<["Participant" := "concerto"]>
  (<["Asset" := "concerto"]>
  (<["Concept" := "concerto"]> ∅)))).

(** The callback of [imports.forEach]. *)
Definition createNameTable_import (imp : Import) (table : NameTable)
    : Prog ModelManager NameTable :=
  let namespace := imp_namespace imp in
  modelFile ← getModelFile namespace;
  match imp with
  | ImportType _ _ name =>
      if negb (getLocalType modelFile name) then
        throw (JsError ("Declaration " +:+ name +:+ " in namespace "
                          +:+ namespace +:+ " not found"))
      else
        mret (tableSet name namespace table)
  | ImportAll _ _ =>
      let decls := getAllDeclarations modelFile in
      mret (foldl (fun table decl => tableSet decl namespace table) table decls)
  end.

(** The callback of [metaModel.declarations.forEach]. *)
Definition createNameTable_local (namespace : string)
    (table : NameTable) (decl : Declaration) : NameTable :=
  tableSet (decl_name decl) namespace table.

Definition createNameTable (modelManager : ModelManager) (metaModel : Model)
    : ModelManager * Result NameTable :=
  (let table := builtinTable in
   match imports metaModel with
   | None => throw TypeError
   | Some imports =>
       table ← forEachM createNameTable_import imports table;
       match declarations metaModel with
       | Some declarations =>
           mret (foldl (createNameTable_local (namespace metaModel))
                       table declarations)
       | None => mret table
       end
   end) modelManager.

(** ** [resolveMetaModel] *)

(** The objects live in a heap; a variable of the code holds a location.
    The registry is the other part of the state. *)
Definition loc : Type := positive.

Record World := mkWorld
  { registry : ModelManager; heap : gmap loc Node }.

Definition set_heap (h : gmap loc Node) (w : World) : World :=
  {| registry := registry w; heap := h |}.

(** Reading the object a variable points to.  (A variable of the code
    always points into the heap; the second branch stands for a location
    that holds nothing.) *)
Definition load (l : loc) : Prog World Node :=
  fun w =>
    match heap w !! l with
    | Some n => (w, Return n)
    | None => (w, Throw TypeError)
    end.

(** A new object. *)
Definition alloc (n : Node) : Prog World loc :=
  fun w =>
    let l := fresh (dom (heap w)) in
    (set_heap (<[l := n]> (heap w)) w, Return l).

(** Running a call on the registry. *)
Definition onRegistry {A} (c : ModelManager -> ModelManager * Result A)
    : Prog World A :=
  fun w =>
    let '(modelManager, r) := c (registry w) in
    ({| registry := modelManager; heap := heap w |}, r).

(** [JSON.parse(JSON.stringify(x))]: a new object graph with the contents
    of [x].  The trees it is given are JSON trees, whose namespaces are
    strings, but for the values a walk before it has taken from
    [Object.prototype]; those are in places where the walk that follows
    writes them again. *)
Definition JSON_clone (x : loc) : Prog World loc :=
  n ← load x; alloc n.

(** [createNameTable(modelManager, mm)] on a heap object; no class but
    [Model] has an [imports] field. *)
Definition createNameTable_at (mm : loc) : Prog World NameTable :=
  n ← load mm;
  match n with
  | NModel m => onRegistry (fun modelManager => createNameTable modelManager m)
  | _ => throw TypeError
  end.

(** [resolveTypeNames(x, table)] on a heap object: the object is updated
    in place, up to the exception if there is one. *)
Definition resolveTypeNames_at (x : loc) (table : NameTable) : Prog World loc :=
  n ← load x;
  let o := resolveTypeNames n table in
  _ ← modify (fun w => set_heap (<[x := after o]> (heap w)) w);
  match thrown o with
  | Some e => throw e
  | None => mret x
  end.

Section Orchestrator.

(** [MetaModel.validateMetaModel]: the structural validator.  It is built
    from [ModelManager], [Factory] and [Serializer], none of which is in
    this file; it reads its input and returns a new tree, or throws. *)
Variable validateMetaModel : Node -> Result Node.

Definition validateMetaModel_at (input : loc) : Prog World loc :=
  n ← load input;
  match validateMetaModel n with
  | Return n' => alloc n'
  | Throw e => throw e
  end.

Definition resolveMetaModel (modelManager : ModelManager)
    (h : gmap loc Node) (metaModel : loc) (validate : bool)
    : World * Result loc :=
  (mm ← (if validate then validateMetaModel_at metaModel else mret metaModel);
   result ← JSON_clone mm;
   nameTable ← createNameTable_at mm;
   _ ← resolveTypeNames_at result nameTable;
   mret result) {| registry := modelManager; heap := h |}.

End Orchestrator.

(** ** Vocabulary of the statements *)

(** The local declarations of a model, none when the field is absent. *)
Definition locals (metaModel : Model) : list Declaration :=
  default [] (declarations metaModel).

Definition declaresLocally (metaModel : Model) (x : string) : bool :=
  bool_decide (x ∈ decl_name <$> locals metaModel).

(** An import whose callback does not throw. *)
Definition importable (modelManager : ModelManager) (imp : Import) : bool :=
  match imp with
  | ImportType ns _ name => getLocalType (modelManager ns) name
  | ImportAll _ _ => true
  end.

(** An import that, when it goes through, binds the short name [x]. *)
Definition introduces (modelManager : ModelManager) (imp : Import) (x : string) : bool :=
  match imp with
  | ImportType _ _ name => bool_decide (x = name)
  | ImportAll ns _ => bool_decide (x ∈ getAllDeclarations (modelManager ns))
  end.

(** The table an importable import leaves behind. *)
Definition importWrites (modelManager : ModelManager) (table : NameTable)
    (imp : Import) : NameTable :=
  match imp with
  | ImportType ns _ name => tableSet name ns table
  | ImportAll ns _ =>
      foldl (fun table decl => tableSet decl ns table) table
            (getAllDeclarations (modelManager ns))
  end.

(** A pass that, run again on what it produced, changes nothing. *)
Definition idempotent {A} (f : Mut A) : Prop :=
  forall a, thrown (f a) = None ->
    thrown (f (after (f a))) = None /\ after (f (after (f a))) = after (f a).

(** An object a pass goes through without throwing and leaves as it is. *)
Definition stable {A} (f : Mut A) (a : A) : Prop :=
  thrown (f a) = None /\ after (f a) = a.

(** [g] keeps the objects [f] leaves alone among those [f] leaves alone. *)
Definition preserves {A} (g f : Mut A) : Prop :=
  forall a, stable f a -> thrown (g a) = None -> stable f (after (g a)).

(** A walk that neither enters the [EnumProperty] case nor reads through
    [undefined]. *)
Definition avoidsEnumProperty {A} (o : Outcome A) : Prop :=
  (metamodel "EnumProperty" ∉ visited o) /\ thrown o ≠ Some TypeError.

(** What [resolveMetaModel] does once [mm] is chosen. *)
Definition resolveCopy (mm : loc) : Prog World loc :=
  result ← JSON_clone mm;
  nameTable ← createNameTable_at mm;
  _ ← resolveTypeNames_at result nameTable;
  mret result.

(** ** Sample inputs *)

Module Sample.

Definition typeRef (name : string) : DecoratorLiteral :=
  DecoratorTypeReference None (mkTypeIdentifier name None) false.

Definition typeRefIn (name ns : string) : DecoratorLiteral :=
  DecoratorTypeReference None (mkTypeIdentifier name (Some (VString ns))) false.

(** [@range(Asset)] *)
Definition rangeDecorator : Decorator :=
  mkDecorator "range" (Some [typeRef "Asset"]) None.

(** [@see(Nowhere)], naming a type no table knows. *)
Definition danglingDecorator : Decorator :=
  mkDecorator "see" (Some [typeRef "Nowhere"]) None.

(** [@range(Asset) o String title] *)
Definition titleProperty : Property :=
  mkProperty "title" false false (Some [rangeDecorator]) None
             (StringProperty None None).

(** [@range(Asset) o Concept owner] *)
Definition ownerProperty : Property :=
  mkProperty "owner" false false (Some [rangeDecorator]) None
             (ObjectProperty None (mkTypeIdentifier "Concept" None)).

(** [@see(Nowhere) RED] *)
Definition redValue : EnumProperty :=
  mkEnumProperty "RED" (Some [danglingDecorator]) None.

(** [@range(Asset) enum Colour { @see(Nowhere) o RED }] *)
Definition colourEnum : EnumDeclaration :=
  mkEnumDeclaration "Colour" (Some [rangeDecorator]) None [redValue].

(** [concept Foo extends Concept { @range(Asset) o Concept owner }] *)
Definition fooConcept : ClassDeclaration :=
  mkClassDeclaration ConceptDeclaration "Foo" None None false None
    (Some (mkTypeIdentifier "Concept" None)) [ownerProperty].

(** A registry where [NS1] declares [Foo] and [Bar], [NS2] declares [Foo],
    and every other namespace declares nothing. *)
Definition registry12 : ModelManager :=
  fun ns =>
    if String.eqb ns "NS1" then mkModelFile ["Foo"; "Bar"]
    else if String.eqb ns "NS2" then mkModelFile ["Foo"]
    else mkModelFile [].

(** A model with an empty import list and no [declarations] field. *)
Definition bareModel : Model :=
  mkModel "org.acme" None None (Some []) None.

(** A model without the optional [imports] field. *)
Definition noImportsModel : Model :=
  mkModel "org.acme" None None None (Some [DeclEnum colourEnum]).

(** [import NS1.*] then [import NS2.Foo], declaring [Colour] locally. *)
Definition overrideModel : Model :=
  mkModel "org.acme" None None
    (Some [ImportAll "NS1" None; ImportType "NS2" None "Foo"])
    (Some [DeclEnum colourEnum]).

(** [import NS1.*], and a local [Foo]. *)
Definition shadowModel : Model :=
  mkModel "org.acme" None None
    (Some [ImportAll "NS1" None])
    (Some [DeclClass fooConcept]).

(** [import NS2.Missing]: [NS2] has no such declaration. *)
Definition missingImportModel : Model :=
  mkModel "org.acme" None None
    (Some [ImportAll "NS1" None; ImportType "NS2" None "Missing"])
    None.

(** A model whose namespace is the empty string, declaring [Foo]. *)
Definition unnamedModel : Model :=
  mkModel "" None None (Some []) (Some [DeclClass fooConcept]).

(** [concept __proto__ {}]: the name is an identifier of the language. *)
Definition protoConcept : ClassDeclaration :=
  mkClassDeclaration ConceptDeclaration "__proto__" None None false None None [].

(** [import NS1.*], and a local [__proto__]. *)
Definition protoModel : Model :=
  mkModel "org.acme" None None
    (Some [ImportAll "NS1" None])
    (Some [DeclClass protoConcept]).

(** A registry where [NS3] declares [__proto__] and [Foo], and every other
    namespace declares nothing. *)
Definition registry3 : ModelManager :=
  fun ns =>
    if String.eqb ns "NS3" then mkModelFile ["__proto__"; "Foo"]
    else mkModelFile [].

(** [import NS3.__proto__] then [import NS2.Missing]. *)
Definition protoImportModel : Model :=
  mkModel "org.acme" None None
    (Some [ImportType "NS3" None "__proto__"; ImportType "NS2" None "Missing"])
    None.

(** A validator that accepts every tree and returns it. *)
Definition acceptAll : Node -> Result Node := Return.

(** A heap with [shadowModel] at location 1. *)
Definition heap1 : gmap loc Node := {[ 1%positive := NModel shadowModel ]}.

End Sample.

(** ** [modelManagerToMetaModel] *)

Section ExportModels.

Variable validateMetaModel : Node -> Result Node.

(** [modelManager.getModelFiles()], which this file calls but does not
    define: for each model file of the registry, in the registry's
    enumeration order, the location of its [ast]. *)
Variable getModelFiles : ModelManager -> list loc.

(** [MetaModel.resolveMetaModel(modelManager, metaModel, validate)] as a call
    made in the current state. *)
Definition resolveMetaModel_call (metaModel : loc) (validate : bool)
    : Prog World loc :=
  fun w => resolveMetaModel validateMetaModel (registry w) (heap w) metaModel validate.

(** The callback of [getModelFiles().forEach]; [models] is the array
    [result.models], which holds references. *)
Definition modelManagerToMetaModel_file (resolve : bool) (ast : loc)
    (models : list loc) : Prog World (list loc) :=
  metaModel ← (if resolve then resolveMetaModel_call ast false else mret ast);
  mret (models ++ [metaModel]).

(** The [Models] object returned is given by its [models] array.  The
    parameter [validate] is not read by the code. *)
Definition modelManagerToMetaModel (modelManager : ModelManager)
    (h : gmap loc Node) (resolve validate : bool)
    : World * Result (list loc) :=
  forEachM (modelManagerToMetaModel_file resolve) (getModelFiles modelManager) []
           {| registry := modelManager; heap := h |}.

End ExportModels.

(** ** Vocabulary of the further statements *)

(** The type identifiers a walk of [resolveTypeNames] comes to, in the order
    it comes to them. *)
Module Reached.

Definition literal (l : DecoratorLiteral) : list TypeIdentifier :=
  match l with
  | DecoratorTypeReference _ type _ => [type]
  | _ => []
  end.

Definition decorator (d : Decorator) : list TypeIdentifier :=
  from_option (flat_map literal) [] (dec_arguments d).

Definition decorators (ds : option (list Decorator)) : list TypeIdentifier :=
  from_option (flat_map decorator) [] ds.

Definition property (p : Property) : list TypeIdentifier :=
  match p_kind p with
  | ObjectProperty _ type
  | RelationshipProperty type => type :: decorators (p_decorators p)
  | _ => []
  end.

Definition enumDeclaration (d : EnumDeclaration) : list TypeIdentifier :=
  decorators (ed_decorators d).

Definition superType (d : ClassDeclaration) : list TypeIdentifier :=
  from_option (fun type => [type]) [] (cd_superType d).

Definition classDeclaration (d : ClassDeclaration) : list TypeIdentifier :=
  superType d
  ++ flat_map property (cd_properties d)
  ++ decorators (cd_decorators d).

Definition declaration (d : Declaration) : list TypeIdentifier :=
  match d with
  | DeclEnum d => enumDeclaration d
  | DeclClass d => classDeclaration d
  end.

Definition model (m : Model) : list TypeIdentifier :=
  from_option (flat_map declaration) [] (declarations m).

(** A walk entered on an [EnumProperty] throws before it comes to any. *)
Definition node (n : Node) : list TypeIdentifier :=
  match n with
  | NModel m => model m
  | NDeclaration d => declaration d
  | NProperty p => property p
  | NDecorator d => decorator d
  | NDecoratorLiteral l => literal l
  | NEnumProperty _ | NModels _ | NImport _ | NTypeIdentifier _ => []
  end.

End Reached.

(** The first exception [resolveName] raises on a list of type identifiers,
    taken in order. *)
Fixpoint firstError (table : NameTable) (types : list TypeIdentifier)
    : option Error :=
  match types with
  | [] => None
  | type :: rest =>
      match resolveName (ti_name type) table with
      | Return _ => firstError table rest
      | Throw e => Some e
      end
  end.

(** The list with the namespace of the table written on every type
    identifier before the first one [resolveName] rejects. *)
Fixpoint annotate (table : NameTable) (types : list TypeIdentifier)
    : list TypeIdentifier :=
  match types with
  | [] => []
  | type :: rest =>
      match resolveName (ti_name type) table with
      | Return ns => set_ti_namespace ns type :: annotate table rest
      | Throw _ => type :: rest
      end
  end.

(** A type identifier that carries the value the table reads under its
    name, a truthy one. *)
Definition resolvedBy (table : NameTable) (type : TypeIdentifier) : Prop :=
  exists ns, ti_namespace type = Some ns /\
             tableGet table (ti_name type) = Some ns /\
             truthy (Some ns) = true.

(** A pass that writes namespaces as [annotate] does on the type
    identifiers [r] finds, and throws what [firstError] says. *)
Definition annotates {A} (table : NameTable) (f : Mut A)
    (r : A -> list TypeIdentifier) : Prop :=
  forall a, r (after (f a)) = annotate table (r a) /\
            thrown (f a) = firstError table (r a).

(** A pass that leaves the view [q] of its object as it was. *)
Definition leaves {A B} (f : Mut A) (q : A -> B) : Prop :=
  forall a, q (after (f a)) = q a.

(** The tree with every namespace removed. *)
Module Erase.

Definition typeIdentifier (t : TypeIdentifier) : TypeIdentifier :=
  mkTypeIdentifier (ti_name t) None.

Definition literal (l : DecoratorLiteral) : DecoratorLiteral :=
  match l with
  | DecoratorTypeReference location type isArray =>
      DecoratorTypeReference location (typeIdentifier type) isArray
  | _ => l
  end.

Definition decorator (d : Decorator) : Decorator :=
  mkDecorator (dec_name d) (fmap (map literal) (dec_arguments d)) (dec_location d).

Definition decorators (ds : option (list Decorator)) : option (list Decorator) :=
  fmap (map decorator) ds.

Definition kind (k : PropertyKind) : PropertyKind :=
  match k with
  | RelationshipProperty type => RelationshipProperty (typeIdentifier type)
  | ObjectProperty defaultValue type =>
      ObjectProperty defaultValue (typeIdentifier type)
  | _ => k
  end.

Definition property (p : Property) : Property :=
  mkProperty (p_name p) (p_isArray p) (p_isOptional p)
             (decorators (p_decorators p)) (p_location p) (kind (p_kind p)).

Definition enumProperty (p : EnumProperty) : EnumProperty :=
  mkEnumProperty (ep_name p) (decorators (ep_decorators p)) (ep_location p).

Definition enumDeclaration (d : EnumDeclaration) : EnumDeclaration :=
  mkEnumDeclaration (ed_name d) (decorators (ed_decorators d)) (ed_location d)
                    (map enumProperty (ed_properties d)).

Definition classDeclaration (d : ClassDeclaration) : ClassDeclaration :=
  mkClassDeclaration (cd_class d) (cd_name d) (decorators (cd_decorators d))
    (cd_location d) (cd_isAbstract d) (cd_identified d)
    (fmap typeIdentifier (cd_superType d)) (map property (cd_properties d)).

Definition declaration (d : Declaration) : Declaration :=
  match d with
  | DeclEnum d => DeclEnum (enumDeclaration d)
  | DeclClass d => DeclClass (classDeclaration d)
  end.

Definition model (m : Model) : Model :=
  mkModel (namespace m) (sourceUri m) (concertoVersion m) (imports m)
          (fmap (map declaration) (declarations m)).

Definition node (n : Node) : Node :=
  match n with
  | NModels models => NModels (map model models)
  | NModel m => NModel (model m)
  | NImport i => NImport i
  | NDeclaration d => NDeclaration (declaration d)
  | NProperty p => NProperty (property p)
  | NEnumProperty p => NEnumProperty (enumProperty p)
  | NDecorator d => NDecorator (decorator d)
  | NDecoratorLiteral l => NDecoratorLiteral (literal l)
  | NTypeIdentifier t => NTypeIdentifier (typeIdentifier t)
  end.

End Erase.

(** What an exported model, at [result] in the heap of [w], is to the [ast]
    it comes from, at [ast] in the heap of [w0]: a new object that holds the
    [ast] as [resolveTypeNames] left it with the name table of the [ast]. *)
Definition exportedFrom (w0 w : World) (ast result : loc) : Prop :=
  heap w0 !! result = None /\
  exists (m : Model) (table : NameTable),
    heap w0 !! ast = Some (NModel m) /\
    createNameTable (registry w0) m = (registry w0, Return table) /\
    thrown (resolveTypeNames (NModel m) table) = None /\
    heap w !! result = Some (after (resolveTypeNames (NModel m) table)).

(** What resolving, without validation, an object that holds [n] throws:
    a [TypeError] when [n] is not a model, else the error of the name table,
    else the error of the walk. *)
Definition resolveError (modelManager : ModelManager) (n : Node) : option Error :=
  match n with
  | NModel m =>
      match (createNameTable modelManager m).2 with
      | Throw e => Some e
      | Return table => thrown (resolveTypeNames n table)
      end
  | _ => Some TypeError
  end.

(** A location whose object resolves in the state [w0]. *)
Definition resolvesAt (w0 : World) (ast : loc) : Prop :=
  exists n, heap w0 !! ast = Some n /\ resolveError (registry w0) n = None.

(** The error of an [ImportType] the registry does not find. *)
Definition importError (name ns : string) : Error :=
  JsError ("Declaration " +:+ name +:+ " in namespace " +:+ ns +:+ " not found").

(** The keys of the table [createNameTable] starts from. *)
Definition seededKeys : list string :=
  ["Concept"; "Asset"; "Participant"; "Transaction "; "Event"].

(** ** Further sample inputs *)

Module SampleExport.

(** [concept Bar extends Nowhere {}]: its super type is bound nowhere. *)
Definition barConcept : ClassDeclaration :=
  mkClassDeclaration ConceptDeclaration "Bar" None None false None
    (Some (mkTypeIdentifier "Nowhere" None)) [].

(** A model that declares [Foo] and imports nothing. *)
Definition fooModel : Model :=
  mkModel "org.foo" None None (Some []) (Some [DeclClass Sample.fooConcept]).

(** A model that declares [Bar], whose super type does not resolve. *)
Definition barModel : Model :=
  mkModel "org.bar" None None (Some []) (Some [DeclClass barConcept]).

(** A model that declares [Foo], which resolves, and then [Bar], which
    does not. *)
Definition mixedModel : Model :=
  mkModel "org.mixed" None None (Some [])
          (Some [DeclClass Sample.fooConcept; DeclClass barConcept]).

(** A heap with the [ast] of two model files. *)
Definition heap2 : gmap loc Node :=
  <[2%positive := NModel fooModel]> {[ 1%positive := NModel Sample.shadowModel ]}.

(** A heap with a model whose last declaration does not resolve. *)
Definition heap3 : gmap loc Node := {[ 1%positive := NModel mixedModel ]}.

(** A heap with the [ast] of two model files, the second of which does not
    resolve. *)
Definition heap4 : gmap loc Node :=
  <[2%positive := NModel mixedModel]> {[ 1%positive := NModel Sample.shadowModel ]}.

(** A registry enumeration with these two model files. *)
Definition twoFiles : ModelManager -> list loc :=
  fun _ => [1%positive; 2%positive].

End SampleExport.

(** ** [resolveName] *)

Lemma tableGet_own (table : NameTable) (name ns : string) :
  table !! name = Some ns -> tableGet table name = Some (VString ns).
Proof. unfold tableGet. by intros ->. Qed.

Lemma tableGet_inherited (table : NameTable) (name : string) :
  table !! name = None -> name ∈ prototypeKeys ->
  tableGet table name = Some (VInherited name).
Proof.
  unfold tableGet, inherited. intros -> Hin. by rewrite bool_decide_eq_true_2.
Qed.

Lemma tableGet_undefined (table : NameTable) (name : string) :
  table !! name = None -> name ∉ prototypeKeys -> tableGet table name = None.
Proof.
  unfold tableGet, inherited. intros -> Hin. by rewrite bool_decide_eq_false_2.
Qed.

Lemma tableGet_VString (table : NameTable) (name ns : string) :
  tableGet table name = Some (VString ns) <-> table !! name = Some ns.
Proof.
  unfold tableGet. destruct (table !! name) as [v|].
  - split; by intros [= ->].
  - by destruct (inherited name).
Qed.

Lemma tableGet_VInherited (table : NameTable) (name key : string) :
  tableGet table name = Some (VInherited key)
  <-> table !! name = None /\ name ∈ prototypeKeys /\ key = name.
Proof.
  unfold tableGet, inherited. destruct (table !! name) as [v|].
  - split; [done | by intros [? _]].
  - case_bool_decide as Hin.
    + split; [by intros [= <-] | by intros (_ & _ & ->)].
    + split; [done | by intros (_ & ? & _)].
Qed.

Lemma truthy_false (table : NameTable) (name : string) :
  truthy (tableGet table name) = false
  <-> table !! name = Some "" \/ (table !! name = None /\ name ∉ prototypeKeys).
Proof.
  unfold tableGet, inherited. destruct (table !! name) as [v|]; simpl.
  - destruct (String.eqb_spec v "") as [->|Hne]; simpl.
    + split; [by left | done].
    + split; [done | intros [[= ?] | [? _]]; done].
  - case_bool_decide as Hin; simpl.
    + split; [done | intros [? | [_ ?]]; done].
    + split; [by right | done].
Qed.

Lemma resolveName_Return (name : string) (table : NameTable) (ns : JsValue) :
  resolveName name table = Return ns
  <-> tableGet table name = Some ns /\ truthy (Some ns) = true.
Proof.
  unfold resolveName. destruct (tableGet table name) as [v|].
  - destruct (truthy (Some v)) eqn:Hv; cbn [negb].
    + split; [by intros [= <-] | by intros [[= <-] _]].
    + split; [done | intros [[= <-] Hns]; rewrite Hv in Hns; done].
  - simpl. split; [done | by intros [? _]].
Qed.

Lemma resolveName_own (name : string) (table : NameTable) (ns : string) :
  resolveName name table = Return (VString ns)
  <-> table !! name = Some ns /\ ns ≠ "".
Proof.
  rewrite resolveName_Return, tableGet_VString. simpl.
  destruct (String.eqb_spec ns "") as [->|Hne]; simpl.
  - split; [by intros [_ ?] | by intros [_ ?]].
  - split; by intros [? _].
Qed.

Lemma resolveName_Throw (name : string) (table : NameTable) (e : Error) :
  resolveName name table = Throw e ->
  e = JsError ("Name " +:+ name +:+ " not found") /\
  truthy (tableGet table name) = false.
Proof.
  unfold resolveName. destruct (truthy (tableGet table name)) eqn:Hv; simpl.
  - by destruct (tableGet table name).
  - by intros [= <-].
Qed.

Lemma resolveName_falsy (name : string) (table : NameTable) :
  truthy (tableGet table name) = false ->
  resolveName name table = Throw (JsError ("Name " +:+ name +:+ " not found")).
Proof. unfold resolveName. by intros ->. Qed.

Lemma resolveName_not_TypeError (name : string) (table : NameTable) :
  resolveName name table ≠ Throw TypeError.
Proof. by intros [? _]%resolveName_Throw. Qed.

(** The assignment of the namespace, as each of its three callers sees it. *)

Lemma assignNamespace_Return table type ns :
  resolveName (ti_name type) table = Return ns ->
  assignNamespace table type
  = mkOutcome (mkTypeIdentifier (ti_name type) (Some ns)) None [].
Proof. unfold assignNamespace. by intros ->. Qed.

Lemma assignNamespace_Throw table type e :
  resolveName (ti_name type) table = Throw e ->
  assignNamespace table type = mkOutcome type (Some e) [].
Proof. unfold assignNamespace. by intros ->. Qed.

Lemma resolveTypeNames_typed_property_type table p type :
  p_type p = Some type ->
  let o := resolveTypeNames_typed p_type set_p_type p_decorators set_p_decorators
             table p in
  match resolveName (ti_name type) table with
  | Return ns =>
      p_type (after o) = Some (mkTypeIdentifier (ti_name type) (Some ns))
  | Throw e => o = mkOutcome p (Some e) []
  end.
Proof.
  intros Htype. unfold resolveTypeNames_typed, Mut.seq, Mut.deref, Mut.field.
  rewrite Htype. destruct p as [n a o ds l k].
  unfold p_type in Htype. simpl in Htype.
  destruct (resolveName (ti_name type) table) as [ns|e] eqn:Hname.
  - rewrite (assignNamespace_Return _ _ _ Hname). simpl.
    destruct k; simplify_eq; reflexivity.
  - rewrite (assignNamespace_Throw _ _ _ Hname). simpl.
    destruct k; simplify_eq; reflexivity.
Qed.

(** C5, on the code: [resolveName(name, table)] is the single property read
    [table[name]], tested for truthiness.  It throws
    [Error("Name <name> not found")], and nothing else, exactly when the read
    gives a falsy value: the table has the empty string under [name], or it
    has no entry under [name] and [Object.prototype] has no property of that
    name.  It returns the table's entry when that is a non-empty string, and
    the value inherited from [Object.prototype] when the table has no entry
    and [name] is one of [constructor], [toString], [__proto__] and the
    like.  The three callers inside [resolveTypeNames] (the
    [DecoratorTypeReference] case, the property case and the [superType] of
    the class declaration case) write what is returned onto the [namespace]
    field of the type identifier whose [name] was looked up, and let the
    exception through without writing.  So the call fails on a name the
    table has an entry for, when the entry is the empty string, and returns
    on a name the table has no entry for, when [Object.prototype] has a
    property of that name. *)
Theorem resolveName_lookup (name : string) (table : NameTable) :
  (resolveName name table = Throw (JsError ("Name " +:+ name +:+ " not found"))
   <-> table !! name = Some "" \/
       (table !! name = None /\ name ∉ prototypeKeys)) /\
  (forall ns : string,
      resolveName name table = Return (VString ns)
      <-> table !! name = Some ns /\ ns ≠ "") /\
  (forall key : string,
      resolveName name table = Return (VInherited key)
      <-> table !! name = None /\ name ∈ prototypeKeys /\ key = name) /\
  (forall e, resolveName name table = Throw e ->
             e = JsError ("Name " +:+ name +:+ " not found")) /\
  (forall location type isArray,
      ti_name type = name ->
      resolveTypeNames
        (NDecoratorLiteral (DecoratorTypeReference location type isArray)) table
      = match resolveName name table with
        | Return ns =>
            mkOutcome
              (NDecoratorLiteral
                 (DecoratorTypeReference location
                    (mkTypeIdentifier name (Some ns)) isArray))
              None [metamodel "DecoratorTypeReference"]
        | Throw e =>
            mkOutcome
              (NDecoratorLiteral (DecoratorTypeReference location type isArray))
              (Some e) [metamodel "DecoratorTypeReference"]
        end) /\
  (forall p type,
      p_type p = Some type -> ti_name type = name ->
      let o := resolveTypeNames (NProperty p) table in
      match resolveName name table with
      | Return ns =>
          exists p', after o = NProperty p' /\
                     p_type p' = Some (mkTypeIdentifier name (Some ns))
      | Throw e => o = mkOutcome (NProperty p) (Some e) [class_of_property p]
      end) /\
  (forall d type,
      cd_superType d = Some type -> ti_name type = name ->
      let o := resolveTypeNames (NDeclaration (DeclClass d)) table in
      match resolveName name table with
      | Return ns =>
          exists d', after o = NDeclaration (DeclClass d') /\
                     cd_superType d' = Some (mkTypeIdentifier name (Some ns))
      | Throw e =>
          o = mkOutcome (NDeclaration (DeclClass d)) (Some e)
                        [class_of_concept (cd_class d)]
      end).
Proof.
  split; [|split; [|split; [|split; [|split; [|split]]]]].
  - rewrite <- truthy_false.
    split; [|apply resolveName_falsy]. by intros [_ ?]%resolveName_Throw.
  - intros ns. apply resolveName_own.
  - intros key. rewrite resolveName_Return, tableGet_VInherited.
    simpl. split; [by intros [? _] | done].
  - by intros e [? _]%resolveName_Throw.
  - intros location type isArray <-.
    unfold resolveTypeNames, Mut.under, resolveTypeNames_DecoratorLiteral,
      Mut.seq, Mut.field. simpl.
    destruct (resolveName (ti_name type) table) as [ns|e] eqn:Hname.
    + by rewrite (assignNamespace_Return _ _ _ Hname).
    + by rewrite (assignNamespace_Throw _ _ _ Hname).
  - intros p type Htype <-.
    pose proof (resolveTypeNames_typed_property_type table p type Htype) as Hp.
    simpl in *. unfold resolveTypeNames_Property, Mut.under.
    assert (Hkind : match p_kind p with
                    | ObjectProperty _ _ | RelationshipProperty _ => True
                    | _ => False
                    end).
    { unfold p_type in Htype. by destruct (p_kind p). }
    destruct (resolveName (ti_name type) table) as [ns|e].
    + eexists. split; [reflexivity|].
      by destruct (p_kind p); try done; simpl.
    + by destruct (p_kind p); try done; simpl; rewrite Hp.
  - intros [cls n ds l ab idf st ps] type Hsuper <-. simpl in Hsuper. subst st.
    unfold resolveTypeNames, resolveTypeNames_Declaration, Mut.under,
      resolveTypeNames_ClassDeclaration, Mut.seq, Mut.field, Mut.enter,
      Mut.whenPresent.
    cbn [thrown after visited cd_superType cd_class].
    destruct (resolveName (ti_name type) table) as [ns|e] eqn:Hname.
    + rewrite (assignNamespace_Return _ _ _ Hname). simpl.
      eexists. split; [reflexivity|].
      destruct (thrown (Mut.forEach _ _)); simpl; done.
    + by rewrite (assignNamespace_Throw _ _ _ Hname).
Qed.

(** On the table of [unnamedModel], whose namespace is the empty string and
    which declares [Foo], the name [Foo] has an entry and is reported not
    found; on the same table the name [constructor] has no entry and is
    returned a value. *)
Lemma resolveName_lookup_witness :
  let table : NameTable := <["Foo" := ""]> builtinTable in
  createNameTable Sample.registry12 Sample.unnamedModel
  = (Sample.registry12, Return table) /\
  (table !! "Foo" = Some "" /\
   resolveName "Foo" table = Throw (JsError "Name Foo not found")) /\
  (table !! "constructor" = None /\
   resolveName "constructor" table = Return (VInherited "constructor")) /\
  resolveName "Asset" table = Return "concerto".
Proof.
  split; [reflexivity|]. split; [|split].
  - split; [reflexivity|].
    apply (proj1 (resolveName_lookup "Foo" (<["Foo" := ""]> builtinTable))).
    left. reflexivity.
  - split; [reflexivity|].
    apply (proj1 (proj2 (proj2
             (resolveName_lookup "constructor" (<["Foo" := ""]> builtinTable))))).
    split; [reflexivity|]. split; [|reflexivity].
    apply (bool_decide_unpack ("constructor" ∈ prototypeKeys)).
    vm_compute. exact I.
  - apply (proj1 (proj2 (resolveName_lookup "Asset" (<["Foo" := ""]> builtinTable)))).
    split; [reflexivity | discriminate].
Defined.

(** ** [resolveTypeNames]: a second pass changes nothing *)

Lemma idempotent_forEach {A} (f : Mut A) :
  idempotent f -> idempotent (Mut.forEach f).
Proof.
  intros Hf l. induction l as [|x xs IH]; simpl; [done|].
  destruct (thrown (f x)) eqn:E; simpl; [done|].
  intros Hxs. destruct (Hf x E) as [E1 E2]. rewrite E1, E2. simpl.
  by destruct (IH Hxs) as [-> ->].
Qed.

Lemma idempotent_whenPresent {A} (f : Mut A) :
  idempotent f -> idempotent (Mut.whenPresent f).
Proof.
  intros Hf [a|]; simpl; [|done].
  intros E. by destruct (Hf a E) as [-> ->].
Qed.

Lemma idempotent_assignNamespace table : idempotent (assignNamespace table).
Proof.
  intros ty. unfold assignNamespace.
  destruct (resolveName (ti_name ty) table) eqn:E; simpl; [|done].
  intros _. by rewrite E.
Qed.

Lemma idempotent_DecoratorLiteral table :
  idempotent (resolveTypeNames_DecoratorLiteral table).
Proof.
  intros [l v|l v|l v|l ty arr]; simpl; try done.
  intros H. by destruct (idempotent_assignNamespace table ty H) as [-> ->].
Qed.

Lemma idempotent_Decorator table : idempotent (resolveTypeNames_Decorator table).
Proof.
  intros d. unfold resolveTypeNames_Decorator. simpl. intros H.
  pose proof (idempotent_whenPresent _
                (idempotent_forEach _ (idempotent_DecoratorLiteral table))) as Hi.
  by destruct (Hi _ H) as [-> ->].
Qed.

Lemma idempotent_decorators table :
  idempotent (Mut.whenPresent (Mut.forEach (resolveTypeNames_Decorator table))).
Proof. apply idempotent_whenPresent, idempotent_forEach, idempotent_Decorator. Qed.

Lemma idempotent_Property table : idempotent (resolveTypeNames_Property table).
Proof.
  intros [n a o ds l k]. unfold resolveTypeNames_Property.
  destruct k as [ty|dv ty| | | | | |]; simpl; try done;
    unfold resolveTypeNames_typed, Mut.seq, Mut.deref, Mut.field; simpl.
  all: destruct (thrown (assignNamespace table ty)) eqn:E1; simpl; [done|].
  all: intros E2.
  all: destruct (idempotent_assignNamespace table _ E1) as [E3 E4].
  all: destruct (idempotent_decorators table _ E2) as [E5 E6].
  all: rewrite E3, E4; simpl; by rewrite E5, E6.
Qed.

Lemma idempotent_EnumDeclaration table :
  idempotent (resolveTypeNames_EnumDeclaration table).
Proof.
  intros d. unfold resolveTypeNames_EnumDeclaration. simpl. intros H.
  by destruct (idempotent_decorators table _ H) as [-> ->].
Qed.

(** A sequence of passes over independent fields is idempotent when each
    pass is, since a later pass leaves the fixed points of an earlier one
    alone. *)

Lemma seq_enter {A} (cls : string) (f : Mut A) (a : A) :
  (Mut.enter cls ;;; f) a
  = mkOutcome (after (f a)) (thrown (f a)) (cls :: visited (f a)).
Proof. done. Qed.

Lemma seq_None {A} (f g : Mut A) (a : A) :
  thrown ((f ;;; g) a) = None ->
  thrown (f a) = None /\ thrown (g (after (f a))) = None /\
  after ((f ;;; g) a) = after (g (after (f a))).
Proof.
  unfold Mut.seq. destruct (thrown (f a)) eqn:E; simpl; [by rewrite E|done].
Qed.

Lemma stable_seq {A} (f g : Mut A) (a : A) :
  stable f a -> stable g a -> stable (f ;;; g) a.
Proof.
  intros [Hf1 Hf2] [Hg1 Hg2]. unfold stable, Mut.seq.
  rewrite Hf1, Hf2. simpl. by rewrite Hg1, Hg2.
Qed.

Lemma idempotent_seq {A} (f g : Mut A) :
  idempotent f -> idempotent g -> preserves g f -> idempotent (f ;;; g).
Proof.
  intros Hf Hg Hpres a (Hfa & Hga & Hafter)%seq_None.
  change (stable (f ;;; g) (after ((f ;;; g) a))). rewrite Hafter.
  apply stable_seq; [|by apply Hg].
  apply Hpres; [by apply Hf | done].
Qed.

Lemma preserves_seq {A} (g1 g2 f : Mut A) :
  preserves g1 f -> preserves g2 f -> preserves (g1 ;;; g2) f.
Proof.
  intros H1 H2 a Hstable (Hg1 & Hg2 & Hafter)%seq_None. rewrite Hafter.
  apply H2; [by apply H1 | done].
Qed.

Lemma idempotent_field {A B} (get : A -> B) (set : B -> A -> A) (f : Mut B) :
  (forall a b, get (set b a) = b) ->
  (forall a b b', set b (set b' a) = set b a) ->
  idempotent f -> idempotent (Mut.field get set f).
Proof.
  intros Hget Hset Hf a. unfold Mut.field. simpl. intros Ha.
  rewrite Hget. destruct (Hf _ Ha) as [-> ->]. by rewrite Hset.
Qed.

Lemma preserves_field {A B C} (get1 : A -> B) (set1 : B -> A -> A) (f : Mut B)
    (get2 : A -> C) (set2 : C -> A -> A) (g : Mut C) :
  (forall a c, get1 (set2 c a) = get1 a) ->
  (forall a b c, set1 b (set2 c a) = set2 c (set1 b a)) ->
  preserves (Mut.field get2 set2 g) (Mut.field get1 set1 f).
Proof.
  intros Hget Hset a [Hf1 Hf2] _. unfold stable, Mut.field in *. simpl in *.
  rewrite Hget. split; [done|]. by rewrite Hset, Hf2.
Qed.

Lemma idempotent_ClassDeclaration table :
  idempotent (resolveTypeNames_ClassDeclaration table).
Proof.
  intros d. unfold resolveTypeNames_ClassDeclaration. rewrite !seq_enter. simpl.
  apply idempotent_seq; [|apply idempotent_seq|apply preserves_seq].
  - apply idempotent_field; [done | done |].
    apply idempotent_whenPresent, idempotent_assignNamespace.
  - apply idempotent_field; [done | done |].
    apply idempotent_forEach, idempotent_Property.
  - apply idempotent_field; [done | done | apply idempotent_decorators].
  - by apply preserves_field.
  - by apply preserves_field.
  - by apply preserves_field.
Qed.

Lemma idempotent_Declaration table : idempotent (resolveTypeNames_Declaration table).
Proof.
  intros [d|d];
    cbn -[resolveTypeNames_EnumDeclaration resolveTypeNames_ClassDeclaration];
    intros H.
  - by destruct (idempotent_EnumDeclaration table _ H) as [-> ->].
  - by destruct (idempotent_ClassDeclaration table _ H) as [-> ->].
Qed.

Lemma idempotent_Model table : idempotent (resolveTypeNames_Model table).
Proof.
  intros m. unfold resolveTypeNames_Model. simpl. intros H.
  pose proof (idempotent_whenPresent _
                (idempotent_forEach _ (idempotent_Declaration table))) as Hi.
  by destruct (Hi _ H) as [-> ->].
Qed.

(** C8: [resolveTypeNames] is idempotent for a fixed name table.  When a
    first call on [metaModel] returns without throwing, a second call with
    the same table on the tree it produced returns too, and leaves that tree
    equal to what it was given: every namespace it assigns is the one already
    there. *)
Theorem resolveTypeNames_idempotent (metaModel : Node) (table : NameTable) :
  thrown (resolveTypeNames metaModel table) = None ->
  let resolved := after (resolveTypeNames metaModel table) in
  thrown (resolveTypeNames resolved table) = None /\
  after (resolveTypeNames resolved table) = resolved.
Proof.
  destruct metaModel as [ms|m|i|d|p|p|d|l|t];
    cbn -[resolveTypeNames_Model resolveTypeNames_Declaration
          resolveTypeNames_Property resolveTypeNames_Decorator
          resolveTypeNames_DecoratorLiteral];
    try done.
  - intros H. by destruct (idempotent_Model table _ H) as [-> ->].
  - intros H. by destruct (idempotent_Declaration table _ H) as [-> ->].
  - intros H. by destruct (idempotent_Property table _ H) as [-> ->].
  - intros H. by destruct (idempotent_Decorator table _ H) as [-> ->].
  - intros H. by destruct (idempotent_DecoratorLiteral table _ H) as [-> ->].
Qed.

Lemma resolveTypeNames_idempotent_witness :
  let metaModel := NDeclaration (DeclClass Sample.fooConcept) in
  let resolved := after (resolveTypeNames metaModel builtinTable) in
  thrown (resolveTypeNames metaModel builtinTable) = None /\
  resolved ≠ metaModel /\
  thrown (resolveTypeNames resolved builtinTable) = None /\
  after (resolveTypeNames resolved builtinTable) = resolved.
Proof.
  split; [reflexivity|]. split; [discriminate|].
  apply (resolveTypeNames_idempotent
           (NDeclaration (DeclClass Sample.fooConcept)) builtinTable).
  reflexivity.
Defined.

(** ** [resolveTypeNames]: the cases a walk enters *)

Lemma avoids_skip {A} (a : A) : avoidsEnumProperty (Mut.skip a).
Proof. split; [apply not_elem_of_nil | done]. Qed.

Lemma avoids_forEach {A} (f : Mut A) (l : list A) :
  (forall a, avoidsEnumProperty (f a)) -> avoidsEnumProperty (Mut.forEach f l).
Proof.
  intros Hf. induction l as [|x xs [IH1 IH2]]; simpl; [exact (avoids_skip []) |].
  destruct (Hf x) as [H1 H2]. destruct (thrown (f x)) eqn:E.
  - split; simpl; [done | congruence].
  - split; simpl; [|done]. rewrite elem_of_app. tauto.
Qed.

Lemma avoids_whenPresent {A} (f : Mut A) (oa : option A) :
  (forall a, avoidsEnumProperty (f a)) -> avoidsEnumProperty (Mut.whenPresent f oa).
Proof.
  intros Hf. destruct oa as [a|]; simpl; [apply Hf | apply avoids_skip].
Qed.

Lemma avoids_assignNamespace table ty : avoidsEnumProperty (assignNamespace table ty).
Proof.
  unfold assignNamespace.
  pose proof (resolveName_not_TypeError (ti_name ty) table) as H.
  destruct (resolveName (ti_name ty) table) as [ns|e]; [apply avoids_skip|].
  split; simpl; [apply not_elem_of_nil | congruence].
Qed.

Lemma avoids_enter {A} (cls : string) (f : Mut A) (a : A) :
  cls ≠ metamodel "EnumProperty" ->
  avoidsEnumProperty (f a) -> avoidsEnumProperty ((Mut.enter cls ;;; f) a).
Proof.
  intros Hc [H1 H2]. split; simpl; [|done].
  rewrite elem_of_cons. intros [?|?]; [by apply Hc | done].
Qed.

Lemma avoids_enter_only {A} (cls : string) (a : A) :
  cls ≠ metamodel "EnumProperty" -> avoidsEnumProperty (Mut.enter cls a).
Proof.
  intros Hc. split; simpl; [|done]. rewrite list_elem_of_singleton. by intros ?.
Qed.

Lemma avoids_seq {A} (f g : Mut A) (a : A) :
  avoidsEnumProperty (f a) -> (forall b, avoidsEnumProperty (g b)) ->
  avoidsEnumProperty ((f ;;; g) a).
Proof.
  intros [H1 H2] Hg. unfold Mut.seq. destruct (thrown (f a)) eqn:E.
  - split; [done | congruence].
  - destruct (Hg (after (f a))) as [H3 H4].
    split; simpl; [|done]. rewrite elem_of_app. tauto.
Qed.

Lemma avoids_field {A B} (get : A -> B) (set : B -> A -> A) (f : Mut B) (a : A) :
  avoidsEnumProperty (f (get a)) -> avoidsEnumProperty (Mut.field get set f a).
Proof. by intros [H1 H2]. Qed.

Lemma avoids_under {A B} (wrap : B -> A) (f : Mut B) (b : B) :
  avoidsEnumProperty (f b) -> avoidsEnumProperty (Mut.under wrap f b).
Proof. by intros [H1 H2]. Qed.

Lemma avoids_DecoratorLiteral table l :
  avoidsEnumProperty (resolveTypeNames_DecoratorLiteral table l).
Proof.
  destruct l as [l v|l v|l v|l ty arr]; try (by apply avoids_enter_only).
  unfold resolveTypeNames_DecoratorLiteral.
  apply avoids_enter; [done|]. apply avoids_field, avoids_assignNamespace.
Qed.

Lemma avoids_Decorator table d :
  avoidsEnumProperty (resolveTypeNames_Decorator table d).
Proof.
  apply avoids_enter; [done|].
  apply avoids_field, avoids_whenPresent. intros l.
  apply avoids_forEach, avoids_DecoratorLiteral.
Qed.

Lemma avoids_decorators table ds :
  avoidsEnumProperty
    (Mut.whenPresent (Mut.forEach (resolveTypeNames_Decorator table)) ds).
Proof.
  apply avoids_whenPresent. intros l. apply avoids_forEach, avoids_Decorator.
Qed.

Lemma avoids_Property table p :
  avoidsEnumProperty (resolveTypeNames_Property table p).
Proof.
  unfold resolveTypeNames_Property.
  destruct p as [n a o ds l []]; simpl p_kind; cbv iota;
    try (by apply avoids_enter_only).
  all: apply avoids_enter; [done|].
  all: apply avoids_seq; [|intros b; apply avoids_field, avoids_decorators].
  all: unfold Mut.deref; simpl; apply avoids_assignNamespace.
Qed.

Lemma avoids_EnumDeclaration table d :
  avoidsEnumProperty (resolveTypeNames_EnumDeclaration table d).
Proof.
  apply avoids_enter; [done|]. apply avoids_field, avoids_decorators.
Qed.

Lemma avoids_ClassDeclaration table d :
  avoidsEnumProperty (resolveTypeNames_ClassDeclaration table d).
Proof.
  unfold resolveTypeNames_ClassDeclaration.
  apply avoids_enter; [by destruct (cd_class d)|].
  apply avoids_seq.
  { apply avoids_field, avoids_whenPresent, avoids_assignNamespace. }
  intros d1. apply avoids_seq.
  { apply avoids_field, avoids_forEach, avoids_Property. }
  intros d2. apply avoids_field, avoids_decorators.
Qed.

Lemma avoids_Declaration table d :
  avoidsEnumProperty (resolveTypeNames_Declaration table d).
Proof.
  destruct d as [d|d]; apply avoids_under;
    [apply avoids_EnumDeclaration | apply avoids_ClassDeclaration].
Qed.

Lemma avoids_Model table m :
  avoidsEnumProperty (resolveTypeNames_Model table m).
Proof.
  apply avoids_enter; [done|].
  apply avoids_field, avoids_whenPresent. intros l.
  apply avoids_forEach, avoids_Declaration.
Qed.

(** C10: [resolveTypeNames] called on an [EnumProperty] object enters the
    case it shares with [ObjectProperty] and [RelationshipProperty] and reads
    [metaModel.type.name]; the schema gives [EnumProperty] no [type] field,
    so every such call throws the [TypeError] of the runtime, with the object
    unchanged.  A walk that starts at a [Model] never enters that case (the
    [EnumDeclaration] case does not go into [properties]) and never throws a
    [TypeError]. *)
Theorem resolveTypeNames_EnumProperty_fails_unreachable :
  (forall (p : EnumProperty) (table : NameTable),
      resolveTypeNames (NEnumProperty p) table
      = mkOutcome (NEnumProperty p) (Some TypeError) [metamodel "EnumProperty"]) /\
  (forall (m : Model) (table : NameTable),
      (metamodel "EnumProperty" ∉ visited (resolveTypeNames (NModel m) table)) /\
      thrown (resolveTypeNames (NModel m) table) ≠ Some TypeError).
Proof.
  split; [done|]. intros m table.
  apply (avoids_under NModel), avoids_Model.
Qed.

Lemma resolveTypeNames_EnumProperty_fails_unreachable_witness :
  resolveTypeNames (NEnumProperty Sample.redValue) builtinTable
  = mkOutcome (NEnumProperty Sample.redValue) (Some TypeError)
              [metamodel "EnumProperty"] /\
  thrown (resolveTypeNames (NModel Sample.noImportsModel) builtinTable)
  ≠ Some TypeError.
Proof.
  split.
  - apply (proj1 resolveTypeNames_EnumProperty_fails_unreachable).
  - apply (proj2 resolveTypeNames_EnumProperty_fails_unreachable).
Defined.

(** C4: on an [EnumDeclaration], [resolveTypeNames] walks the declaration's
    own decorators, when the field is present, and nothing else.  The
    [properties] come back as they were given, so the type references inside
    the decorators of the [EnumProperty] children keep the namespace they
    had; what is thrown and what is entered do not depend on [properties];
    the [EnumProperty] case is not entered. *)
Theorem resolveTypeNames_EnumDeclaration_own_decorators_only
    (d : EnumDeclaration) (table : NameTable) :
  let o := resolveTypeNames (NDeclaration (DeclEnum d)) table in
  let own := Mut.whenPresent (Mut.forEach (resolveTypeNames_Decorator table))
               (ed_decorators d) in
  o = mkOutcome
        (NDeclaration
           (DeclEnum (mkEnumDeclaration (ed_name d) (after own) (ed_location d)
                                        (ed_properties d))))
        (thrown own) (metamodel "EnumDeclaration" :: visited own) /\
  (metamodel "EnumProperty" ∉ visited o) /\
  (forall properties : list EnumProperty,
      let o' := resolveTypeNames
                  (NDeclaration
                     (DeclEnum (mkEnumDeclaration (ed_name d) (ed_decorators d)
                                                  (ed_location d) properties)))
                  table in
      thrown o' = thrown o /\ visited o' = visited o /\
      after o' = NDeclaration
                   (DeclEnum (mkEnumDeclaration (ed_name d) (after own)
                                                (ed_location d) properties))).
Proof.
  split; [done|]. split; [|done].
  apply (avoids_under NDeclaration), avoids_Declaration.
Qed.

Lemma resolveTypeNames_EnumDeclaration_own_decorators_only_witness :
  resolveTypeNames (NDeclaration (DeclEnum Sample.colourEnum)) builtinTable
  = mkOutcome
      (NDeclaration
         (DeclEnum
            (mkEnumDeclaration "Colour"
               (Some [mkDecorator "range"
                        (Some [Sample.typeRefIn "Asset" "concerto"]) None])
               None
               [mkEnumProperty "RED"
                  (Some [mkDecorator "see" (Some [Sample.typeRef "Nowhere"]) None])
                  None])))
      None
      [metamodel "EnumDeclaration"; metamodel "Decorator";
       metamodel "DecoratorTypeReference"].
Proof.
  apply (proj1 (resolveTypeNames_EnumDeclaration_own_decorators_only
                  Sample.colourEnum builtinTable)).
Defined.

(** C2, what the code does: a property of one of the six primitive classes
    matches no case of the [switch], so [resolveTypeNames] returns it as it
    is and enters nothing below it; the decorators it carries are not walked
    and a [DecoratorTypeReference] inside them keeps its namespace unset. *)
Theorem resolveTypeNames_primitive_property_untouched
    (p : Property) (table : NameTable) :
  p_type p = None ->
  resolveTypeNames (NProperty p) table
  = mkOutcome (NProperty p) None [class_of_property p].
Proof.
  unfold p_type. simpl. unfold resolveTypeNames_Property, Mut.under.
  by destruct (p_kind p).
Qed.

Lemma resolveTypeNames_primitive_property_untouched_witness :
  p_decorators Sample.titleProperty
  = Some [mkDecorator "range" (Some [Sample.typeRef "Asset"]) None] /\
  resolveTypeNames (NProperty Sample.titleProperty) builtinTable
  = mkOutcome (NProperty Sample.titleProperty) None
              [metamodel "StringProperty"] /\
  after (resolveTypeNames (NProperty Sample.ownerProperty) builtinTable)
  = NProperty
      (mkProperty "owner" false false
         (Some [mkDecorator "range"
                  (Some [Sample.typeRefIn "Asset" "concerto"]) None])
         None
         (ObjectProperty None (mkTypeIdentifier "Concept" (Some (VString "concerto"))))).
Proof.
  split; [reflexivity|]. split; [|reflexivity].
  apply (resolveTypeNames_primitive_property_untouched
           Sample.titleProperty builtinTable).
  reflexivity.
Defined.

(** ** [createNameTable] *)

Lemma tableSet_unfold (name ns : string) (table : NameTable) :
  tableSet name ns table
  = if decide (name = "__proto__" /\ table !! "__proto__" = None)
    then table else <[name := ns]> table.
Proof.
  unfold tableSet.
  destruct (decide (name = "__proto__" /\ table !! "__proto__" = None))
    as [[-> Hown]|Hd].
  - rewrite bool_decide_eq_true_2 by done.
    rewrite (bool_decide_eq_false_2 (is_Some _)); [done|].
    rewrite Hown. by intros [? ?].
  - case_bool_decide as Hname; simpl; [|done]. subst name.
    rewrite bool_decide_eq_true_2; [done|].
    destruct (table !! "__proto__") eqn:Hown; [by eexists | by destruct Hd].
Qed.

Lemma lookup_tableSet_ne (name ns : string) (table : NameTable) (x : string) :
  x ≠ "__proto__" -> tableSet name ns table !! x = <[name := ns]> table !! x.
Proof.
  intros Hx. rewrite tableSet_unfold. case_decide as Hd; [|done].
  destruct Hd as [-> _]. by rewrite lookup_insert_ne.
Qed.

Lemma lookup_tableSet_proto (name ns : string) (table : NameTable) :
  table !! "__proto__" = None -> tableSet name ns table !! "__proto__" = None.
Proof.
  intros Hown. rewrite tableSet_unfold. case_decide as Hd; [done|].
  rewrite lookup_insert_ne; [done|]. intros ->. by apply Hd.
Qed.

Lemma lookup_foldl_tableSet {B} (f : B -> string) (ns : string) (l : list B)
    (t : NameTable) (x : string) :
  x ≠ "__proto__" ->
  foldl (fun t d => tableSet (f d) ns t) t l !! x
  = if bool_decide (x ∈ f <$> l) then Some ns else t !! x.
Proof.
  intros Hx. revert t. induction l as [|d l IH]; intros t; simpl; [done|].
  rewrite IH. clear IH. rewrite lookup_tableSet_ne by done.
  rewrite lookup_insert.
  change (list_fmap B string f l) with (f <$> l).
  destruct (decide (x ∈ f <$> l)) as [Hin|Hout].
  - rewrite !bool_decide_eq_true_2; [done | by right | done].
  - rewrite (bool_decide_eq_false_2 _ Hout). case_decide as Hd.
    + subst x. rewrite bool_decide_eq_true_2; [done | by left].
    + rewrite bool_decide_eq_false_2; [done|].
      intros [?|?]%elem_of_cons; [by apply Hd | by apply Hout].
Qed.

Lemma lookup_foldl_tableSet_proto {B} (f : B -> string) (ns : string)
    (l : list B) (t : NameTable) :
  t !! "__proto__" = None ->
  foldl (fun t d => tableSet (f d) ns t) t l !! "__proto__" = None.
Proof.
  revert t. induction l as [|d l IH]; intros t Hown; simpl; [done|].
  apply IH. by apply lookup_tableSet_proto.
Qed.

Lemma lookup_locals (ns : string) (table : NameTable) (decls : list Declaration)
    (x : string) :
  x ≠ "__proto__" ->
  foldl (createNameTable_local ns) table decls !! x
  = if bool_decide (x ∈ decl_name <$> decls) then Some ns else table !! x.
Proof. apply (lookup_foldl_tableSet decl_name). Qed.

Lemma lookup_locals_proto (ns : string) (table : NameTable)
    (decls : list Declaration) :
  table !! "__proto__" = None ->
  foldl (createNameTable_local ns) table decls !! "__proto__" = None.
Proof. apply (lookup_foldl_tableSet_proto decl_name). Qed.

Lemma lookup_importWrites modelManager (table : NameTable) imp (x : string) :
  x ≠ "__proto__" ->
  importWrites modelManager table imp !! x
  = if introduces modelManager imp x then Some (imp_namespace imp) else table !! x.
Proof.
  intros Hx. destruct imp as [ns uri|ns uri name]; simpl.
  - rewrite (lookup_foldl_tableSet id) by done. by rewrite list_fmap_id.
  - rewrite lookup_tableSet_ne by done.
    rewrite lookup_insert. case_decide; case_bool_decide; by subst.
Qed.

Lemma lookup_importWrites_proto modelManager (table : NameTable) imp :
  table !! "__proto__" = None ->
  importWrites modelManager table imp !! "__proto__" = None.
Proof.
  intros Hown. destruct imp as [ns uri|ns uri name]; simpl.
  - by apply (lookup_foldl_tableSet_proto id).
  - by apply lookup_tableSet_proto.
Qed.

Lemma lookup_imports_later modelManager post (table : NameTable) (x : string) :
  x ≠ "__proto__" ->
  forallb (fun later => negb (introduces modelManager later x)) post = true ->
  foldl (importWrites modelManager) table post !! x = table !! x.
Proof.
  intros Hx. revert table.
  induction post as [|imp post IH]; intros table; simpl; [done|].
  intros [Himp Hpost]%andb_true_iff. rewrite IH by done.
  rewrite lookup_importWrites by done.
  by destruct (introduces modelManager imp x).
Qed.

Lemma lookup_imports_proto modelManager imps (table : NameTable) :
  table !! "__proto__" = None ->
  foldl (importWrites modelManager) table imps !! "__proto__" = None.
Proof.
  revert table. induction imps as [|imp imps IH]; intros table Hown; simpl;
    [done|].
  apply IH. by apply lookup_importWrites_proto.
Qed.

Lemma createNameTable_import_step modelManager imp table :
  createNameTable_import imp table modelManager
  = (modelManager,
     match imp with
     | ImportType ns _ name =>
         if getLocalType (modelManager ns) name
         then Return (tableSet name ns table)
         else Throw (JsError ("Declaration " +:+ name +:+ " in namespace "
                                +:+ ns +:+ " not found"))
     | ImportAll _ _ => Return (importWrites modelManager table imp)
     end).
Proof.
  destruct imp as [ns uri|ns uri name]; [done|].
  unfold createNameTable_import, mbind, Prog_bind, getModelFile, gets. simpl.
  by destruct (getLocalType (modelManager ns) name).
Qed.

Lemma forEachM_import_cons modelManager imp imports table :
  forEachM createNameTable_import (imp :: imports) table modelManager
  = match (createNameTable_import imp table modelManager).2 with
    | Return table' => forEachM createNameTable_import imports table' modelManager
    | Throw e => (modelManager, Throw e)
    end.
Proof.
  simpl. unfold mbind, Prog_bind. rewrite createNameTable_import_step. simpl.
  by destruct imp as [ns uri|ns uri name]; [|destruct (getLocalType _ _)].
Qed.

Lemma forEachM_import_registry modelManager imports table :
  (forEachM createNameTable_import imports table modelManager).1 = modelManager.
Proof.
  revert table. induction imports as [|imp imports IH]; intros table; [done|].
  rewrite forEachM_import_cons.
  by destruct ((createNameTable_import imp table modelManager).2).
Qed.

Lemma forEachM_import_app modelManager pre post table :
  forallb (importable modelManager) pre = true ->
  forEachM createNameTable_import (pre ++ post) table modelManager
  = forEachM createNameTable_import post
      (foldl (importWrites modelManager) table pre) modelManager.
Proof.
  revert table. induction pre as [|imp pre IH]; intros table; [done|].
  simpl app. intros [Himp Himps]%andb_true_iff.
  rewrite forEachM_import_cons, createNameTable_import_step. simpl foldl.
  destruct imp as [ns uri|ns uri name]; simpl in *.
  - by apply IH.
  - rewrite Himp. by apply IH.
Qed.

Lemma forEachM_import_ok modelManager imports table :
  forallb (importable modelManager) imports = true ->
  forEachM createNameTable_import imports table modelManager
  = (modelManager, Return (foldl (importWrites modelManager) table imports)).
Proof.
  intros Hok. rewrite <- (app_nil_r imports) at 1.
  by rewrite forEachM_import_app.
Qed.

Lemma createNameTable_registry modelManager metaModel :
  (createNameTable modelManager metaModel).1 = modelManager.
Proof.
  unfold createNameTable. destruct (imports metaModel) as [imps|]; [|done].
  unfold mbind, Prog_bind.
  pose proof (forEachM_import_registry modelManager imps builtinTable) as H.
  destruct (forEachM createNameTable_import imps builtinTable modelManager)
    as [mm' [table|e]]; simpl in *; subst; [|done].
  by destruct (declarations metaModel).
Qed.

Lemma createNameTable_ok modelManager metaModel imps :
  imports metaModel = Some imps ->
  forallb (importable modelManager) imps = true ->
  createNameTable modelManager metaModel
  = (modelManager,
     Return (foldl (createNameTable_local (namespace metaModel))
               (foldl (importWrites modelManager) builtinTable imps)
               (locals metaModel))).
Proof.
  intros Himps Hok. unfold createNameTable, locals. rewrite Himps.
  unfold mbind, Prog_bind. rewrite forEachM_import_ok by done.
  by destruct (declarations metaModel).
Qed.

(** The table [createNameTable] builds has no property of its own under
    [__proto__], whatever the imports and the local declarations are named:
    a read of that name gives the prototype of the table. *)
Lemma createNameTable_proto modelManager metaModel imps :
  imports metaModel = Some imps ->
  forallb (importable modelManager) imps = true ->
  exists table : NameTable,
    createNameTable modelManager metaModel = (modelManager, Return table) /\
    table !! "__proto__" = None /\
    resolveName "__proto__" table = Return (VInherited "__proto__").
Proof.
  intros Himps Hok. eexists. split; [by apply createNameTable_ok|].
  assert (Hown : foldl (createNameTable_local (namespace metaModel))
                   (foldl (importWrites modelManager) builtinTable imps)
                   (locals metaModel) !! "__proto__" = None).
  { apply lookup_locals_proto. by apply lookup_imports_proto. }
  split; [done|]. apply resolveName_Return. split; [|done].
  apply tableGet_inherited; [done|].
  apply (bool_decide_unpack ("__proto__" ∈ prototypeKeys)). vm_compute. exact I.
Qed.

(** C3, on the code: the table is settled by write order alone.  Whenever
    every import of the model goes through, a table is built (imports that
    bind the same short name raise nothing), and for a short name [x] other
    than [__proto__], bound by an import [imp] that no later import binds
    again, the table maps [x] to the namespace of [imp], unless the model
    declares [x] itself, in which case it maps [x] to the namespace of the
    model; every local declaration named otherwise than [__proto__] is
    mapped to the namespace of the model.  Under [__proto__] the table
    stores nothing, be the name imported or declared by the model: the
    write [table[name] = namespace] on the plain object is taken by the
    setter it inherits, and the name resolves to the prototype of the table
    instead of a namespace. *)
Theorem createNameTable_write_order
    (modelManager : ModelManager) (metaModel : Model)
    (pre : list Import) (imp : Import) (post : list Import) (x : string) :
  imports metaModel = Some (pre ++ imp :: post) ->
  forallb (importable modelManager) (pre ++ imp :: post) = true ->
  introduces modelManager imp x = true ->
  forallb (fun later => negb (introduces modelManager later x)) post = true ->
  exists table : NameTable,
    createNameTable modelManager metaModel = (modelManager, Return table) /\
    (x ≠ "__proto__" ->
     table !! x = Some (if declaresLocally metaModel x
                        then namespace metaModel else imp_namespace imp)) /\
    (forall decl, decl ∈ locals metaModel -> decl_name decl ≠ "__proto__" ->
                  table !! decl_name decl = Some (namespace metaModel)) /\
    table !! "__proto__" = None /\
    resolveName "__proto__" table = Return (VInherited "__proto__").
Proof.
  intros Himps Hok Hx Hpost.
  destruct (createNameTable_proto modelManager metaModel _ Himps Hok)
    as (table & Htable & Hown & Hread).
  exists table. split; [done|].
  rewrite (createNameTable_ok _ _ _ Himps Hok) in Htable.
  injection Htable as <-.
  split; [|split; [|done]].
  - intros Hne. rewrite lookup_locals by done.
    unfold declaresLocally. case_bool_decide; [done|].
    rewrite foldl_app. simpl. rewrite lookup_imports_later by done.
    rewrite lookup_importWrites by done. by rewrite Hx.
  - intros decl Hdecl Hne. rewrite lookup_locals by done.
    rewrite bool_decide_eq_true_2; [done|]. by apply list_elem_of_fmap_2.
Qed.

(** The two instances the spec names: [ImportAll(NS1), ImportType(NS2, Foo)]
    where [NS1] also declares [Foo] gives [Foo -> NS2]; an imported [Foo]
    with a local [Foo] gives [Foo -> model.namespace].  And the instance
    that fails: the local declaration [__proto__] of [protoModel] is bound
    to nothing. *)
Lemma createNameTable_write_order_witness :
  (exists table : NameTable,
      createNameTable Sample.registry12 Sample.overrideModel
      = (Sample.registry12, Return table) /\
      table !! "Foo" = Some "NS2" /\
      (forall decl, decl ∈ locals Sample.overrideModel ->
                    table !! decl_name decl = Some "org.acme")) /\
  (exists table : NameTable,
      createNameTable Sample.registry12 Sample.shadowModel
      = (Sample.registry12, Return table) /\
      table !! "Foo" = Some "org.acme" /\
      (forall decl, decl ∈ locals Sample.shadowModel ->
                    table !! decl_name decl = Some "org.acme")) /\
  (exists table : NameTable,
      createNameTable Sample.registry12 Sample.protoModel
      = (Sample.registry12, Return table) /\
      declaresLocally Sample.protoModel "__proto__" = true /\
      table !! "__proto__" = None /\
      resolveName "__proto__" table = Return (VInherited "__proto__")).
Proof.
  split; [|split].
  - destruct (createNameTable_write_order
                Sample.registry12 Sample.overrideModel
                [ImportAll "NS1" None] (ImportType "NS2" None "Foo") [] "Foo")
      as (table & Htable & Hx & Hlocals & _); [reflexivity ..|].
    exists table. split; [exact Htable|]. split; [by apply Hx|].
    intros decl Hdecl. apply Hlocals; [exact Hdecl|].
    apply list_elem_of_singleton in Hdecl. by subst decl.
  - destruct (createNameTable_write_order
                Sample.registry12 Sample.shadowModel
                [] (ImportAll "NS1" None) [] "Foo")
      as (table & Htable & Hx & Hlocals & _); [reflexivity ..|].
    exists table. split; [exact Htable|]. split; [by apply Hx|].
    intros decl Hdecl. apply Hlocals; [exact Hdecl|].
    apply list_elem_of_singleton in Hdecl. by subst decl.
  - destruct (createNameTable_write_order
                Sample.registry12 Sample.protoModel
                [] (ImportAll "NS1" None) [] "Foo")
      as (table & Htable & _ & _ & Hown & Hread); [reflexivity ..|].
    exists table. split; [exact Htable|]. split; [reflexivity|].
    split; [exact Hown | exact Hread].
Defined.

(** C1, what the code does: the table is seeded with [Concept], [Asset],
    [Participant] and [Event], and with the key ["Transaction "] (a trailing
    space) instead of [Transaction].  For a model with an empty import list
    and no local declaration of one of the five names, the four resolve to
    [concerto], and [resolveName("Transaction", table)] throws. *)
Theorem createNameTable_builtin_names
    (modelManager : ModelManager) (metaModel : Model) :
  imports metaModel = Some [] ->
  forallb (fun x => negb (declaresLocally metaModel x))
          ["Concept"; "Asset"; "Participant"; "Transaction"; "Event"] = true ->
  exists table : NameTable,
    createNameTable modelManager metaModel = (modelManager, Return table) /\
    resolveName "Concept" table = Return "concerto" /\
    resolveName "Asset" table = Return "concerto" /\
    resolveName "Participant" table = Return "concerto" /\
    resolveName "Event" table = Return "concerto" /\
    table !! "Transaction" = None /\
    resolveName "Transaction" table
    = Throw (JsError "Name Transaction not found").
Proof.
  intros Himps Hlocal. eexists. split; [by apply (createNameTable_ok _ _ [])|].
  simpl in Hlocal. unfold declaresLocally in Hlocal.
  repeat (apply andb_true_iff in Hlocal as [?%negb_true_iff Hlocal]).
  assert (Hbuiltin : forall x, x ≠ "__proto__" ->
            bool_decide (x ∈ decl_name <$> locals metaModel) = false ->
            foldl (createNameTable_local (namespace metaModel))
                  (foldl (importWrites modelManager) builtinTable [])
                  (locals metaModel) !! x = builtinTable !! x).
  { intros x Hne Hx. rewrite lookup_locals by done. by rewrite Hx. }
  repeat split.
  - apply resolveName_own. by rewrite Hbuiltin.
  - apply resolveName_own. by rewrite Hbuiltin.
  - apply resolveName_own. by rewrite Hbuiltin.
  - apply resolveName_own. by rewrite Hbuiltin.
  - by rewrite Hbuiltin.
  - apply resolveName_falsy, truthy_false. right.
    split; [by rewrite Hbuiltin|].
    apply (bool_decide_unpack ("Transaction" ∉ prototypeKeys)).
    vm_compute. exact I.
Qed.

Lemma createNameTable_builtin_names_witness :
  exists table : NameTable,
    createNameTable Sample.registry12 Sample.bareModel
    = (Sample.registry12, Return table) /\
    resolveName "Concept" table = Return "concerto" /\
    resolveName "Asset" table = Return "concerto" /\
    resolveName "Participant" table = Return "concerto" /\
    resolveName "Event" table = Return "concerto" /\
    table !! "Transaction" = None /\
    resolveName "Transaction" table
    = Throw (JsError "Name Transaction not found").
Proof.
  apply (createNameTable_builtin_names Sample.registry12 Sample.bareModel);
    reflexivity.
Defined.

(** C6, on the code: an [ImportType] reached by [createNameTable] whose name
    the registry does not find among the local declarations of its namespace
    makes the call throw [Error("Declaration <name> in namespace <namespace>
    not found")].  When the registry finds it, the callback runs the write
    [table[name] = namespace]: the name is bound to the namespace, unless the
    name is [__proto__], for which the plain object stores nothing and the
    table stays as it was.  Whatever the model, the registry is after the
    call what it was before. *)
Theorem createNameTable_ImportType_not_found
    (modelManager : ModelManager) (metaModel : Model)
    (pre : list Import) (ns : string) (uri : option string) (name : string)
    (post : list Import) :
  imports metaModel = Some (pre ++ ImportType ns uri name :: post) ->
  forallb (importable modelManager) pre = true ->
  getLocalType (modelManager ns) name = false ->
  createNameTable modelManager metaModel
  = (modelManager,
     Throw (JsError ("Declaration " +:+ name +:+ " in namespace " +:+ ns
                       +:+ " not found"))) /\
  (forall (ns' : string) (uri' : option string) (name' : string)
          (table : NameTable),
      createNameTable_import (ImportType ns' uri' name') table modelManager
      = (modelManager,
         if getLocalType (modelManager ns') name'
         then Return (if decide (name' = "__proto__" /\
                                 table !! "__proto__" = None)
                      then table else <[name' := ns']> table)
         else Throw (JsError ("Declaration " +:+ name' +:+ " in namespace "
                                +:+ ns' +:+ " not found")))) /\
  (forall metaModel' : Model,
      (createNameTable modelManager metaModel').1 = modelManager).
Proof.
  intros Himps Hpre Hmissing. split; [|split].
  - unfold createNameTable. rewrite Himps. unfold mbind, Prog_bind.
    rewrite forEachM_import_app by done.
    rewrite forEachM_import_cons, createNameTable_import_step. simpl.
    by rewrite Hmissing.
  - intros ns' uri' name' table.
    rewrite createNameTable_import_step, tableSet_unfold.
    by destruct (getLocalType (modelManager ns') name').
  - apply createNameTable_registry.
Qed.

(** The instance of the spec, and the instance that fails: [NS3] declares
    [__proto__], the import of [NS3.__proto__] goes through, and the table
    is after it what it was before. *)
Lemma createNameTable_ImportType_not_found_witness :
  (getLocalType (Sample.registry12 "NS2") "Missing" = false /\
   createNameTable Sample.registry12 Sample.missingImportModel
   = (Sample.registry12,
      Throw (JsError "Declaration Missing in namespace NS2 not found"))) /\
  (getLocalType (Sample.registry3 "NS3") "__proto__" = true /\
   createNameTable_import (ImportType "NS3" None "__proto__") builtinTable
                          Sample.registry3
   = (Sample.registry3, Return builtinTable)).
Proof.
  split; (split; [reflexivity|]).
  - apply (createNameTable_ImportType_not_found
             Sample.registry12 Sample.missingImportModel
             [ImportAll "NS1" None] "NS2" None "Missing" []);
      reflexivity.
  - destruct (createNameTable_ImportType_not_found
                Sample.registry3 Sample.protoImportModel
                [ImportType "NS3" None "__proto__"] "NS2" None "Missing" [])
      as (_ & Hstep & _); [reflexivity ..|].
    exact (Hstep "NS3" None "__proto__" builtinTable).
Defined.

(** C9: [createNameTable] calls [forEach] on [metaModel.imports] without
    testing the field.  On a model without [imports] (the schema makes the
    field optional) the call throws the [TypeError] of the runtime; the same
    model with an empty import list gives a table, and so does a model
    without [declarations], the field the code does test. *)
Theorem createNameTable_requires_imports
    (modelManager : ModelManager) (metaModel : Model) :
  imports metaModel = None ->
  createNameTable modelManager metaModel = (modelManager, Throw TypeError) /\
  createNameTable modelManager
    (mkModel (namespace metaModel) (sourceUri metaModel)
             (concertoVersion metaModel) (Some []) (declarations metaModel))
  = (modelManager,
     Return (foldl (createNameTable_local (namespace metaModel)) builtinTable
                   (locals metaModel))) /\
  createNameTable modelManager
    (mkModel (namespace metaModel) (sourceUri metaModel)
             (concertoVersion metaModel) (Some []) None)
  = (modelManager, Return builtinTable).
Proof.
  intros Hnone. split; [|split].
  - unfold createNameTable. by rewrite Hnone.
  - by rewrite (createNameTable_ok _ _ []).
  - done.
Qed.

Lemma createNameTable_requires_imports_witness :
  imports Sample.noImportsModel = None /\
  createNameTable Sample.registry12 Sample.noImportsModel
  = (Sample.registry12, Throw TypeError).
Proof.
  split; [reflexivity|].
  apply (createNameTable_requires_imports
           Sample.registry12 Sample.noImportsModel).
  reflexivity.
Defined.

(** ** [resolveMetaModel] *)

Lemma fresh_ne (h : gmap loc Node) (l : loc) (n : Node) :
  h !! l = Some n -> fresh (dom h) ≠ l.
Proof.
  intros Hl Heq. apply (is_fresh (dom h)). rewrite Heq.
  apply elem_of_dom. by exists n.
Qed.

Lemma fresh_lookup (h : gmap loc Node) : h !! fresh (dom h) = None.
Proof. apply not_elem_of_dom, is_fresh. Qed.

Lemma bind_Return {S A B} (c : Prog S A) (k : A -> Prog S B) s s' a :
  c s = (s', Return a) -> (c ≫= k) s = k a s'.
Proof. unfold mbind, Prog_bind. by intros ->. Qed.

Lemma bind_Throw {S A B} (c : Prog S A) (k : A -> Prog S B) s s' e :
  c s = (s', Throw e) -> (c ≫= k) s = (s', Throw e).
Proof. unfold mbind, Prog_bind. by intros ->. Qed.

Lemma load_spec w l n : heap w !! l = Some n -> load l w = (w, Return n).
Proof. unfold load. by intros ->. Qed.

Lemma JSON_clone_spec w x n :
  heap w !! x = Some n ->
  JSON_clone x w
  = (set_heap (<[fresh (dom (heap w)) := n]> (heap w)) w,
     Return (fresh (dom (heap w)))).
Proof.
  intros Hx. unfold JSON_clone.
  by rewrite (bind_Return _ _ _ _ _ (load_spec _ _ _ Hx)).
Qed.

Lemma createNameTable_at_spec w mm n :
  heap w !! mm = Some n ->
  createNameTable_at mm w
  = (w, match n with
        | NModel m => (createNameTable (registry w) m).2
        | _ => Throw TypeError
        end).
Proof.
  intros Hmm. unfold createNameTable_at.
  rewrite (bind_Return _ _ _ _ _ (load_spec _ _ _ Hmm)).
  destruct n; try done. unfold onRegistry.
  pose proof (createNameTable_registry (registry w) m) as Hreg.
  destruct (createNameTable (registry w) m) as [reg r]; simpl in *; subst reg.
  by destruct w.
Qed.

Lemma resolveTypeNames_at_spec w x n table :
  heap w !! x = Some n ->
  resolveTypeNames_at x table w
  = (set_heap (<[x := after (resolveTypeNames n table)]> (heap w)) w,
     match thrown (resolveTypeNames n table) with
     | Some e => Throw e
     | None => Return x
     end).
Proof.
  intros Hx. unfold resolveTypeNames_at.
  rewrite (bind_Return _ _ _ _ _ (load_spec _ _ _ Hx)).
  unfold mbind, Prog_bind, modify.
  by destruct (thrown (resolveTypeNames n table)).
Qed.

(** The copy is a new object; the walk writes to it and to nothing else. *)
Lemma resolveCopy_spec (w0 : World) (mm : loc) (working : Node) :
  heap w0 !! mm = Some working ->
  let w := (resolveCopy mm w0).1 in
  let r := (resolveCopy mm w0).2 in
  (forall l, l ∈ dom (heap w0) -> heap w !! l = heap w0 !! l) /\
  registry w = registry w0 /\
  (forall result, r = Return result ->
     heap w0 !! result = None /\
     exists (m : Model) (table : NameTable),
       working = NModel m /\
       createNameTable (registry w0) m = (registry w0, Return table) /\
       thrown (resolveTypeNames working table) = None /\
       heap w !! result = Some (after (resolveTypeNames working table))).
Proof.
  intros Hmm.
  pose proof (fresh_ne (heap w0) mm working Hmm) as Hne.
  pose proof (fresh_lookup (heap w0)) as Hfresh.
  set (result := fresh (dom (heap w0))) in *.
  assert (Hframe : forall (l : loc) (n : Node),
             l ∈ dom (heap w0) -> <[result := n]> (heap w0) !! l = heap w0 !! l).
  { intros l n [n' Hl]%elem_of_dom. rewrite lookup_insert_ne; [done|].
    by apply (fresh_ne (heap w0) l n'). }
  unfold resolveCopy.
  rewrite (bind_Return _ _ _ _ _ (JSON_clone_spec _ _ _ Hmm)). fold result.
  set (w1 := set_heap (<[result := working]> (heap w0)) w0).
  assert (Hmm1 : heap w1 !! mm = Some working)
    by (simpl; by rewrite lookup_insert_ne).
  pose proof (createNameTable_at_spec w1 mm working Hmm1) as Htable.
  destruct (match working with
            | NModel m => (createNameTable (registry w1) m).2
            | _ => Throw TypeError
            end) as [table|e] eqn:Hworking.
  2:{ rewrite (bind_Throw _ _ _ _ _ Htable). simpl.
      split; [intros l Hl; by apply Hframe | done]. }
  rewrite (bind_Return _ _ _ _ _ Htable).
  assert (Hres1 : heap w1 !! result = Some working)
    by (simpl; by rewrite lookup_insert_eq).
  pose proof (resolveTypeNames_at_spec w1 result working table Hres1) as Hwalk.
  assert (Hframe' : forall l : loc, l ∈ dom (heap w0) ->
            <[result := after (resolveTypeNames working table)]> (heap w1) !! l
            = heap w0 !! l).
  { intros l Hl. simpl. rewrite insert_insert_eq. by apply Hframe. }
  destruct (thrown (resolveTypeNames working table)) as [e|] eqn:Hthrown.
  { rewrite (bind_Throw _ _ _ _ _ Hwalk). simpl. split; [done | done]. }
  rewrite (bind_Return _ _ _ _ _ Hwalk). simpl.
  split; [done | split; [done|]].
  intros ? [= <-]. split; [done|].
  destruct working as [ms|m|i|d|p|p|d|lit|t]; try done.
  exists m, table. split; [done|]. split.
  - pose proof (createNameTable_registry (registry w0) m) as Hreg.
    simpl in Hworking.
    destruct (createNameTable (registry w0) m) as [reg r]; simpl in *.
    by subst.
  - split; [done|]. by rewrite lookup_insert_eq.
Qed.

Section Purity.

Variable validateMetaModel : Node -> Result Node.

Lemma resolveMetaModel_unfold modelManager h metaModel validate :
  resolveMetaModel validateMetaModel modelManager h metaModel validate
  = ((if validate then validateMetaModel_at validateMetaModel metaModel
      else mret metaModel) ≫= resolveCopy)
      {| registry := modelManager; heap := h |}.
Proof. done. Qed.

Lemma validateMetaModel_at_spec w input n :
  heap w !! input = Some n ->
  validateMetaModel_at validateMetaModel input w
  = match validateMetaModel n with
    | Return n' =>
        (set_heap (<[fresh (dom (heap w)) := n']> (heap w)) w,
         Return (fresh (dom (heap w))))
    | Throw e => (w, Throw e)
    end.
Proof.
  intros Hin. unfold validateMetaModel_at.
  rewrite (bind_Return _ _ _ _ _ (load_spec _ _ _ Hin)).
  by destruct (validateMetaModel n).
Qed.

(** C7: [resolveMetaModel] leaves its argument as it found it, for either
    value of [validate] and whether it returns or throws.  The object
    [metaModel] points to, every other object of the heap and the registry
    are unchanged.  When the call returns, the location it returns is a new
    one; it holds the working tree (the validator's output, or the argument
    itself when [validate] is false) as [resolveTypeNames] left it, with the
    table built from the working tree. *)
Theorem resolveMetaModel_leaves_argument_unchanged
    (modelManager : ModelManager) (h : gmap loc Node) (metaModel : loc)
    (validate : bool) (input : Node) :
  h !! metaModel = Some input ->
  let w := (resolveMetaModel validateMetaModel modelManager h metaModel validate).1 in
  let r := (resolveMetaModel validateMetaModel modelManager h metaModel validate).2 in
  heap w !! metaModel = Some input /\
  (forall l, l ∈ dom h -> heap w !! l = h !! l) /\
  registry w = modelManager /\
  (forall result, r = Return result ->
     h !! result = None /\
     exists (working : Node) (m : Model) (table : NameTable),
       (if validate then validateMetaModel input = Return working
        else working = input) /\
       working = NModel m /\
       createNameTable modelManager m = (modelManager, Return table) /\
       thrown (resolveTypeNames working table) = None /\
       heap w !! result = Some (after (resolveTypeNames working table))).
Proof.
  intros Hin.
  assert (Hdom : metaModel ∈ dom h) by (apply elem_of_dom; by exists input).
  cut (let w := (resolveMetaModel validateMetaModel modelManager h metaModel validate).1 in
       let r := (resolveMetaModel validateMetaModel modelManager h metaModel validate).2 in
       (forall l, l ∈ dom h -> heap w !! l = h !! l) /\
       registry w = modelManager /\
       (forall result, r = Return result ->
          h !! result = None /\
          exists (working : Node) (m : Model) (table : NameTable),
            (if validate then validateMetaModel input = Return working
             else working = input) /\
            working = NModel m /\
            createNameTable modelManager m = (modelManager, Return table) /\
            thrown (resolveTypeNames working table) = None /\
            heap w !! result = Some (after (resolveTypeNames working table)))).
  { simpl. intros [Hframe Hrest]. split; [|done]. by rewrite Hframe. }
  rewrite resolveMetaModel_unfold.
  set (w0 := {| registry := modelManager; heap := h |}).
  destruct validate.
  - pose proof (validateMetaModel_at_spec w0 metaModel input Hin) as Hvalidate.
    destruct (validateMetaModel input) as [working|e] eqn:Hv.
    2:{ by rewrite (bind_Throw _ _ _ _ _ Hvalidate). }
    rewrite (bind_Return _ _ _ _ _ Hvalidate).
    set (w1 := set_heap (<[fresh (dom h) := working]> h) w0).
    assert (Hw1 : heap w1 !! fresh (dom h) = Some working)
      by apply lookup_insert_eq.
    destruct (resolveCopy_spec w1 (fresh (dom h)) working Hw1)
      as (Hframe & Hreg & Hres).
    split; [|split; [done|]].
    + intros l Hl. rewrite Hframe.
      * simpl. destruct (proj1 (elem_of_dom _ _) Hl) as [n Hn].
        rewrite lookup_insert_ne; [done|]. by apply (fresh_ne h l n).
      * simpl. rewrite dom_insert_L. by apply elem_of_union_r.
    + intros result Hr. destruct (Hres result Hr) as (Hnone & m & table & Hrest).
      clear Hres. split.
      * simpl in Hnone. destruct (decide (fresh (dom h) = result)) as [<-|Hne].
        -- apply fresh_lookup.
        -- by rewrite lookup_insert_ne in Hnone.
      * by exists working, m, table.
  - rewrite (bind_Return _ _ w0 w0 metaModel) by done.
    destruct (resolveCopy_spec w0 metaModel input Hin) as (Hframe & Hreg & Hres).
    split; [done | split; [done|]].
    intros result Hr. destruct (Hres result Hr) as (Hnone & m & table & Hrest).
    split; [done|]. by exists input, m, table.
Qed.

End Purity.

Lemma resolveMetaModel_leaves_argument_unchanged_witness :
  Sample.heap1 !! 1%positive = Some (NModel Sample.shadowModel) /\
  (forall validate : bool,
      let w := (resolveMetaModel Sample.acceptAll Sample.registry12
                  Sample.heap1 1%positive validate).1 in
      heap w !! 1%positive = Some (NModel Sample.shadowModel)) /\
  (resolveMetaModel Sample.acceptAll Sample.registry12
     Sample.heap1 1%positive false).2 = Return 2%positive.
Proof.
  split; [reflexivity|]. split; [|reflexivity].
  intros validate.
  destruct (resolveMetaModel_leaves_argument_unchanged Sample.acceptAll
              Sample.registry12 Sample.heap1 1%positive validate
              (NModel Sample.shadowModel)) as [Hsame _];
    [reflexivity | exact Hsame].
Defined.

(** ** [resolveTypeNames]: what a walk writes and what it throws *)

Lemma firstError_app table l1 l2 :
  firstError table (l1 ++ l2)
  = match firstError table l1 with
    | Some e => Some e
    | None => firstError table l2
    end.
Proof.
  induction l1 as [|type l1 IH]; simpl; [done|].
  by destruct (resolveName (ti_name type) table).
Qed.

Lemma annotate_app table l1 l2 :
  annotate table (l1 ++ l2)
  = match firstError table l1 with
    | Some _ => annotate table l1 ++ l2
    | None => annotate table l1 ++ annotate table l2
    end.
Proof.
  induction l1 as [|type l1 IH]; simpl; [done|].
  destruct (resolveName (ti_name type) table); [|done].
  rewrite IH. by destruct (firstError table l1).
Qed.

Lemma annotates_enter {A} table (cls : string) (f : Mut A) r :
  annotates table f r -> annotates table (Mut.enter cls ;;; f) r.
Proof. intros Hf a. rewrite seq_enter. apply Hf. Qed.

Lemma leaves_enter {A B} (cls : string) (f : Mut A) (q : A -> B) :
  leaves f q -> leaves (Mut.enter cls ;;; f) q.
Proof. intros Hf a. rewrite seq_enter. apply Hf. Qed.

Lemma annotates_seq {A} table (f g : Mut A) (p q : A -> list TypeIdentifier) :
  annotates table f p -> leaves f q ->
  annotates table g q -> leaves g p ->
  annotates table (f ;;; g) (fun a => p a ++ q a).
Proof.
  intros Hf Hfq Hg Hgp a. destruct (Hf a) as [Hf1 Hf2].
  rewrite annotate_app, firstError_app. unfold Mut.seq.
  rewrite Hf2. destruct (firstError table (p a)) as [e|]; simpl.
  - by rewrite Hf1, Hfq.
  - destruct (Hg (after (f a))) as [Hg1 Hg2].
    by rewrite Hgp, Hf1, Hg1, Hg2, Hfq.
Qed.

Lemma leaves_seq {A B} (f g : Mut A) (q : A -> B) :
  leaves f q -> leaves g q -> leaves (f ;;; g) q.
Proof.
  intros Hf Hg a. unfold Mut.seq. destruct (thrown (f a)); simpl; [apply Hf|].
  by rewrite Hg, Hf.
Qed.

Lemma annotates_field {A B} table (get : A -> B) (set : B -> A -> A)
    (f : Mut B) (r : B -> list TypeIdentifier) :
  (forall a b, get (set b a) = b) ->
  annotates table f r -> annotates table (Mut.field get set f) (fun a => r (get a)).
Proof. intros Hget Hf a. unfold Mut.field. simpl. rewrite Hget. apply Hf. Qed.

Lemma leaves_field {A B C} (get : A -> B) (set : B -> A -> A) (f : Mut B)
    (q : A -> C) :
  (forall a b, q (set b a) = q a) -> leaves (Mut.field get set f) q.
Proof. intros Hq a. apply Hq. Qed.

(** A field pass leaves a view that sees the field through [e] only, when
    the pass on the field leaves [e]. *)
Lemma leaves_field_through {A B C D} (get : A -> B) (set : B -> A -> A)
    (f : Mut B) (e : B -> D) (q : A -> C) :
  (forall a b, e b = e (get a) -> q (set b a) = q a) ->
  leaves f e -> leaves (Mut.field get set f) q.
Proof. intros Hq Hf a. apply Hq, Hf. Qed.

Lemma annotates_whenPresent {A} table (f : Mut A) r :
  annotates table f r ->
  annotates table (Mut.whenPresent f) (from_option r []).
Proof. intros Hf [a|]; simpl; [apply Hf | done]. Qed.

Lemma leaves_whenPresent {A B} (f : Mut A) (e : A -> B) :
  leaves f e -> leaves (Mut.whenPresent f) (fmap e).
Proof. intros Hf [a|]; simpl; [by rewrite Hf | done]. Qed.

Lemma annotates_forEach {A} table (f : Mut A) r :
  annotates table f r -> annotates table (Mut.forEach f) (flat_map r).
Proof.
  intros Hf l. induction l as [|x xs [IH1 IH2]]; simpl; [done|].
  destruct (Hf x) as [Hx1 Hx2].
  rewrite annotate_app, firstError_app, <- Hx2.
  destruct (thrown (f x)); simpl.
  - by rewrite Hx1.
  - by rewrite Hx1, IH1, IH2.
Qed.

Lemma leaves_forEach {A B} (f : Mut A) (e : A -> B) :
  leaves f e -> leaves (Mut.forEach f) (map e).
Proof.
  intros Hf l. induction l as [|x xs IH]; simpl; [done|].
  destruct (thrown (f x)); simpl; [by rewrite Hf|].
  by rewrite Hf, IH.
Qed.

Lemma annotates_assignNamespace table :
  annotates table (assignNamespace table) (fun type => [type]).
Proof.
  intros type. unfold assignNamespace. simpl.
  by destruct (resolveName (ti_name type) table).
Qed.

Lemma leaves_assignNamespace table :
  leaves (assignNamespace table) Erase.typeIdentifier.
Proof.
  intros type. unfold assignNamespace.
  by destruct (resolveName (ti_name type) table).
Qed.

Lemma annotates_DecoratorLiteral table :
  annotates table (resolveTypeNames_DecoratorLiteral table) Reached.literal.
Proof.
  intros [l v|l v|l v|l type arr]; try done.
  unfold resolveTypeNames_DecoratorLiteral. rewrite seq_enter.
  unfold Mut.field. simpl.
  pose proof (annotates_assignNamespace table type) as [H1 H2].
  simpl in *. by rewrite H2, <- H1.
Qed.

Lemma annotates_Decorator table :
  annotates table (resolveTypeNames_Decorator table) Reached.decorator.
Proof.
  apply annotates_enter.
  apply (annotates_field table dec_arguments set_dec_arguments _
           (from_option (flat_map Reached.literal) [])); [done|].
  apply annotates_whenPresent, annotates_forEach, annotates_DecoratorLiteral.
Qed.

Lemma annotates_decorators table :
  annotates table
    (Mut.whenPresent (Mut.forEach (resolveTypeNames_Decorator table)))
    Reached.decorators.
Proof. apply annotates_whenPresent, annotates_forEach, annotates_Decorator. Qed.

Lemma annotates_Property table :
  annotates table (resolveTypeNames_Property table) Reached.property.
Proof.
  intros [n a o ds l k]. unfold resolveTypeNames_Property, Reached.property.
  destruct k as [type|dv type| | | | | |]; try done; simpl p_kind; cbv iota.
  all: rewrite seq_enter; cbn [after thrown].
  all: unfold resolveTypeNames_typed, Mut.seq, Mut.deref, Mut.field; simpl.
  all: destruct (annotates_assignNamespace table type) as [H1 H2];
    simpl in H1, H2.
  all: destruct (annotates_decorators table ds) as [H3 H4].
  all: destruct (resolveName (ti_name type) table) as [ns|e] eqn:Hname.
  all: try (rewrite (assignNamespace_Return _ _ _ Hname); simpl;
            by rewrite H3, H4).
  all: by rewrite (assignNamespace_Throw _ _ _ Hname).
Qed.

Lemma annotates_EnumDeclaration table :
  annotates table (resolveTypeNames_EnumDeclaration table) Reached.enumDeclaration.
Proof.
  apply annotates_enter.
  apply (annotates_field table ed_decorators set_ed_decorators _
           Reached.decorators); [done|].
  apply annotates_decorators.
Qed.

Lemma annotates_ClassDeclaration table :
  annotates table (resolveTypeNames_ClassDeclaration table)
            Reached.classDeclaration.
Proof.
  intros d. unfold resolveTypeNames_ClassDeclaration. rewrite seq_enter.
  cbn [after thrown]. revert d.
  apply (annotates_seq table _ _ Reached.superType
           (fun d => flat_map Reached.property (cd_properties d)
                     ++ Reached.decorators (cd_decorators d))).
  - apply (annotates_field table cd_superType set_cd_superType _
             (from_option (fun type => [type]) [])); [done|].
    apply annotates_whenPresent, annotates_assignNamespace.
  - by apply leaves_field.
  - apply (annotates_seq table _ _
             (fun d => flat_map Reached.property (cd_properties d))
             (fun d => Reached.decorators (cd_decorators d))).
    + apply (annotates_field table cd_properties set_cd_properties _
               (flat_map Reached.property)); [done|].
      apply annotates_forEach, annotates_Property.
    + by apply leaves_field.
    + apply (annotates_field table cd_decorators set_cd_decorators _
               Reached.decorators); [done|].
      apply annotates_decorators.
    + by apply leaves_field.
  - apply leaves_seq; by apply leaves_field.
Qed.

Lemma annotates_Declaration table :
  annotates table (resolveTypeNames_Declaration table) Reached.declaration.
Proof.
  intros [d|d]; unfold resolveTypeNames_Declaration, Mut.under;
    cbn [after thrown Reached.declaration].
  - apply annotates_EnumDeclaration.
  - apply annotates_ClassDeclaration.
Qed.

Lemma annotates_Model table :
  annotates table (resolveTypeNames_Model table) Reached.model.
Proof.
  apply annotates_enter.
  apply (annotates_field table declarations set_declarations _
           (from_option (flat_map Reached.declaration) [])); [done|].
  apply annotates_whenPresent, annotates_forEach, annotates_Declaration.
Qed.

Lemma firstError_None table types :
  firstError table types = None
  <-> Forall (fun type => truthy (tableGet table (ti_name type)) = true) types.
Proof.
  induction types as [|type rest IH]; simpl; [by split|].
  rewrite Forall_cons.
  destruct (resolveName (ti_name type) table) as [ns|e] eqn:Hname.
  - apply resolveName_Return in Hname as [-> Hns]. rewrite IH. tauto.
  - apply resolveName_Throw in Hname as [_ ->].
    split; [done | by intros [? _]].
Qed.

Lemma firstError_Some table types e :
  firstError table types = Some e ->
  exists pre type post,
    types = pre ++ type :: post /\
    Forall (fun type => truthy (tableGet table (ti_name type)) = true) pre /\
    truthy (tableGet table (ti_name type)) = false /\
    e = JsError ("Name " +:+ ti_name type +:+ " not found").
Proof.
  induction types as [|type rest IH]; simpl; [done|].
  destruct (resolveName (ti_name type) table) as [ns|e'] eqn:Hname.
  - intros (pre & type' & post & -> & Hpre & Hfalsy & ->)%IH.
    exists (type :: pre), type', post. repeat split; try done.
    constructor; [|done].
    apply resolveName_Return in Hname as [Hlookup Hne]. by rewrite Hlookup.
  - intros [= <-]. exists [], type, rest.
    apply resolveName_Throw in Hname as [-> Hfalsy].
    repeat split; done.
Qed.

Lemma annotate_resolvedBy table types :
  firstError table types = None -> Forall (resolvedBy table) (annotate table types).
Proof.
  induction types as [|type rest IH]; simpl; [by constructor|].
  destruct (resolveName (ti_name type) table) as [ns|e] eqn:Hname; [|done].
  intros Hrest. constructor; [|by apply IH].
  apply resolveName_Return in Hname as [Hlookup Hne]. by exists ns.
Qed.

Lemma annotate_names table types :
  map ti_name (annotate table types) = map ti_name types.
Proof.
  induction types as [|type rest IH]; simpl; [done|].
  destruct (resolveName (ti_name type) table); simpl; by rewrite ?IH.
Qed.

(** Erasure. *)

Lemma leaves_Erase_DecoratorLiteral table :
  leaves (resolveTypeNames_DecoratorLiteral table) Erase.literal.
Proof.
  intros [l v|l v|l v|l type arr]; try done.
  unfold resolveTypeNames_DecoratorLiteral. rewrite seq_enter.
  unfold Mut.field. simpl. by rewrite leaves_assignNamespace.
Qed.

Lemma leaves_Erase_Decorator table :
  leaves (resolveTypeNames_Decorator table) Erase.decorator.
Proof.
  apply leaves_enter.
  apply (leaves_field_through _ _ _ (fmap (map Erase.literal))).
  - intros d args Hargs. unfold Erase.decorator. simpl. by rewrite Hargs.
  - apply leaves_whenPresent, leaves_forEach, leaves_Erase_DecoratorLiteral.
Qed.

Lemma leaves_Erase_decorators table :
  leaves (Mut.whenPresent (Mut.forEach (resolveTypeNames_Decorator table)))
         Erase.decorators.
Proof. apply leaves_whenPresent, leaves_forEach, leaves_Erase_Decorator. Qed.

Lemma leaves_Erase_Property table :
  leaves (resolveTypeNames_Property table) Erase.property.
Proof.
  intros [n a o ds l k]. unfold resolveTypeNames_Property.
  destruct k as [type|dv type| | | | | |]; try done; simpl p_kind; cbv iota.
  all: rewrite seq_enter; cbn [after].
  all: unfold resolveTypeNames_typed, Mut.seq, Mut.deref, Mut.field; simpl.
  all: pose proof (leaves_assignNamespace table type) as H1.
  all: pose proof (leaves_Erase_decorators table ds) as H2.
  all: destruct (thrown (assignNamespace table type)); simpl;
    unfold Erase.property; simpl; by rewrite ?H1, ?H2.
Qed.

Lemma leaves_Erase_EnumDeclaration table :
  leaves (resolveTypeNames_EnumDeclaration table) Erase.enumDeclaration.
Proof.
  apply leaves_enter.
  apply (leaves_field_through _ _ _ Erase.decorators).
  - intros d ds Hds. unfold Erase.enumDeclaration. simpl. by rewrite Hds.
  - apply leaves_Erase_decorators.
Qed.

Lemma leaves_Erase_ClassDeclaration table :
  leaves (resolveTypeNames_ClassDeclaration table) Erase.classDeclaration.
Proof.
  intros d. unfold resolveTypeNames_ClassDeclaration. rewrite seq_enter.
  cbn [after]. revert d. repeat apply leaves_seq.
  - apply (leaves_field_through _ _ _ (fmap Erase.typeIdentifier)).
    + intros d st Hst. unfold Erase.classDeclaration. simpl. by rewrite Hst.
    + apply leaves_whenPresent, leaves_assignNamespace.
  - apply (leaves_field_through _ _ _ (map Erase.property)).
    + intros d ps Hps. unfold Erase.classDeclaration. simpl. by rewrite Hps.
    + apply leaves_forEach, leaves_Erase_Property.
  - apply (leaves_field_through _ _ _ Erase.decorators).
    + intros d ds Hds. unfold Erase.classDeclaration. simpl. by rewrite Hds.
    + apply leaves_Erase_decorators.
Qed.

Lemma leaves_Erase_Declaration table :
  leaves (resolveTypeNames_Declaration table) Erase.declaration.
Proof.
  intros [d|d]; unfold resolveTypeNames_Declaration, Mut.under;
    cbn [after Erase.declaration]; f_equal.
  - apply leaves_Erase_EnumDeclaration.
  - apply leaves_Erase_ClassDeclaration.
Qed.

Lemma leaves_Erase_Model table :
  leaves (resolveTypeNames_Model table) Erase.model.
Proof.
  apply leaves_enter.
  apply (leaves_field_through _ _ _ (fmap (map Erase.declaration))).
  - intros m ds Hds. unfold Erase.model. simpl. by rewrite Hds.
  - apply leaves_whenPresent, leaves_forEach, leaves_Erase_Declaration.
Qed.

Lemma resolveTypeNames_annotates (metaModel : Node) (table : NameTable) :
  (forall p, metaModel ≠ NEnumProperty p) ->
  Reached.node (after (resolveTypeNames metaModel table))
  = annotate table (Reached.node metaModel) /\
  thrown (resolveTypeNames metaModel table)
  = firstError table (Reached.node metaModel).
Proof.
  intros Hnot.
  destruct metaModel as [ms|m|i|d|p|p|d|l|t]; try done;
    unfold resolveTypeNames, Mut.under; cbn [after thrown Reached.node].
  - apply annotates_Model.
  - apply annotates_Declaration.
  - apply annotates_Property.
  - by destruct (Hnot p).
  - apply annotates_Decorator.
  - apply annotates_DecoratorLiteral.
Qed.

(** X1: whatever [resolveTypeNames] is called on and whether it returns
    or throws, the object it leaves differs from the one it was given in
    [namespace] fields only: with every namespace removed the two trees are
    equal. *)
Theorem resolveTypeNames_writes_namespaces_only
    (metaModel : Node) (table : NameTable) :
  Erase.node (after (resolveTypeNames metaModel table)) = Erase.node metaModel.
Proof.
  destruct metaModel as [ms|m|i|d|p|p|d|l|t]; try done;
    unfold resolveTypeNames, Mut.under; cbn [after Erase.node]; f_equal.
  - apply leaves_Erase_Model.
  - apply leaves_Erase_Declaration.
  - apply leaves_Erase_Property.
  - apply leaves_Erase_Decorator.
  - apply leaves_Erase_DecoratorLiteral.
Qed.

(** X2: on an object that is not an [EnumProperty], [resolveTypeNames]
    returns exactly when the read [table[name]] gives a truthy value for the
    name of every type identifier the walk comes to: a non-empty entry of
    the table or, where the table has no entry, a property of
    [Object.prototype].  When it throws, the error is [Name <name> not
    found] for the first identifier, in walk order, whose name reads
    falsy. *)
Theorem resolveTypeNames_throws_first_unresolved
    (metaModel : Node) (table : NameTable) :
  (forall p, metaModel ≠ NEnumProperty p) ->
  (thrown (resolveTypeNames metaModel table) = None
   <-> Forall (fun type => truthy (tableGet table (ti_name type)) = true)
              (Reached.node metaModel)) /\
  (forall e, thrown (resolveTypeNames metaModel table) = Some e ->
     exists pre type post,
       Reached.node metaModel = pre ++ type :: post /\
       Forall (fun type => truthy (tableGet table (ti_name type)) = true) pre /\
       truthy (tableGet table (ti_name type)) = false /\
       e = JsError ("Name " +:+ ti_name type +:+ " not found")).
Proof.
  intros Hnot.
  destruct (resolveTypeNames_annotates metaModel table Hnot) as [_ ->].
  split; [apply firstError_None | apply firstError_Some].
Qed.

Lemma resolveTypeNames_throws_first_unresolved_witness :
  thrown (resolveTypeNames (NModel SampleExport.fooModel) builtinTable) = None /\
  thrown (resolveTypeNames (NDecoratorLiteral (Sample.typeRef "toString"))
                           builtinTable) = None /\
  thrown (resolveTypeNames (NModel SampleExport.barModel) builtinTable)
  = Some (JsError "Name Nowhere not found").
Proof.
  split; [|split].
  - apply (resolveTypeNames_throws_first_unresolved
             (NModel SampleExport.fooModel) builtinTable); [done|].
    repeat constructor.
  - apply (resolveTypeNames_throws_first_unresolved
             (NDecoratorLiteral (Sample.typeRef "toString")) builtinTable);
      [done|].
    repeat constructor.
  - destruct (resolveTypeNames_throws_first_unresolved
                (NModel SampleExport.barModel) builtinTable) as [_ Herror];
      [done|].
    reflexivity.
Defined.

(** X3: the namespaces are written in walk order up to the first identifier
    the table rejects: the identifiers the walk comes to are, after the call,
    those of [annotate].  When the call returns, each of them carries in
    its [namespace] the truthy value the read [table[name]] gives for its
    name: the non-empty entry of the table, or the value inherited from
    [Object.prototype] where the table has no entry. *)
Theorem resolveTypeNames_annotates_reached
    (metaModel : Node) (table : NameTable) :
  thrown (resolveTypeNames metaModel table) = None ->
  Reached.node (after (resolveTypeNames metaModel table))
  = annotate table (Reached.node metaModel) /\
  map ti_name (Reached.node (after (resolveTypeNames metaModel table)))
  = map ti_name (Reached.node metaModel) /\
  Forall (resolvedBy table)
         (Reached.node (after (resolveTypeNames metaModel table))).
Proof.
  intros Hreturns.
  assert (Hnot : forall p, metaModel ≠ NEnumProperty p).
  { intros p ->. discriminate Hreturns. }
  destruct (resolveTypeNames_annotates metaModel table Hnot) as [Hafter Hthrown].
  rewrite Hafter. split; [done|]. split; [apply annotate_names|].
  apply annotate_resolvedBy. by rewrite <- Hthrown.
Qed.

Lemma resolveTypeNames_annotates_reached_witness :
  Reached.node
    (after (resolveTypeNames (NModel SampleExport.fooModel) builtinTable))
  = [mkTypeIdentifier "Concept" (Some (VString "concerto"));
     mkTypeIdentifier "Concept" (Some (VString "concerto"));
     mkTypeIdentifier "Asset" (Some (VString "concerto"))].
Proof.
  destruct (resolveTypeNames_annotates_reached
              (NModel SampleExport.fooModel) builtinTable) as [Hafter _];
    [reflexivity|].
  rewrite Hafter. reflexivity.
Defined.

(** X4: when the call throws, the identifiers before the
    one that is rejected are annotated and the others are as they were. *)
Theorem resolveTypeNames_partial_on_throw
    (metaModel : Node) (table : NameTable) (e : Error) :
  thrown (resolveTypeNames metaModel table) = Some e ->
  (forall p, metaModel ≠ NEnumProperty p) ->
  exists pre type post,
    Reached.node metaModel = pre ++ type :: post /\
    resolveName (ti_name type) table = Throw e /\
    firstError table pre = None /\
    Reached.node (after (resolveTypeNames metaModel table))
    = annotate table pre ++ type :: post.
Proof.
  intros Hthrows Hnot.
  destruct (resolveTypeNames_annotates metaModel table Hnot) as [Hafter Hthrown].
  rewrite Hafter. rewrite Hthrown in Hthrows. clear Hafter Hthrown.
  induction (Reached.node metaModel) as [|type rest IH]; simpl in *; [done|].
  destruct (resolveName (ti_name type) table) as [ns|e'] eqn:Hname.
  - destruct (IH Hthrows) as (pre & type' & post & -> & Hthrow & Hpre & Heq).
    exists (type :: pre), type', post. simpl. rewrite Hname.
    repeat split; try done. by rewrite Heq.
  - injection Hthrows as <-. by exists [], type, rest.
Qed.

Lemma resolveTypeNames_partial_on_throw_witness :
  Reached.node
    (after (resolveTypeNames (NModel SampleExport.mixedModel) builtinTable))
  = [mkTypeIdentifier "Concept" (Some (VString "concerto"));
     mkTypeIdentifier "Concept" (Some (VString "concerto"));
     mkTypeIdentifier "Asset" (Some (VString "concerto"));
     mkTypeIdentifier "Nowhere" None] /\
  exists pre type post,
    Reached.node (NModel SampleExport.mixedModel) = pre ++ type :: post /\
    resolveName (ti_name type) builtinTable
    = Throw (JsError "Name Nowhere not found") /\
    firstError builtinTable pre = None /\
    Reached.node
      (after (resolveTypeNames (NModel SampleExport.mixedModel) builtinTable))
    = annotate builtinTable pre ++ type :: post.
Proof.
  split; [reflexivity|].
  apply (resolveTypeNames_partial_on_throw
           (NModel SampleExport.mixedModel) builtinTable);
    [reflexivity | done].
Defined.

(** ** [createNameTable]: its errors, the names it leaves unbound *)

Lemma forallb_first_false {A} (f : A -> bool) (l : list A) :
  forallb f l = false ->
  exists pre x post, l = pre ++ x :: post /\ forallb f pre = true /\ f x = false.
Proof.
  induction l as [|x l IH]; simpl; [done|].
  destruct (f x) eqn:Hx; simpl.
  - intros (pre & y & post & -> & Hpre & Hy)%IH.
    exists (x :: pre), y, post. simpl. by rewrite Hx.
  - intros _. by exists [], x, l.
Qed.

Lemma createNameTable_not_found modelManager metaModel pre ns uri name post :
  imports metaModel = Some (pre ++ ImportType ns uri name :: post) ->
  forallb (importable modelManager) pre = true ->
  getLocalType (modelManager ns) name = false ->
  createNameTable modelManager metaModel
  = (modelManager, Throw (importError name ns)).
Proof.
  intros Himps Hpre Hmissing.
  unfold createNameTable. rewrite Himps. unfold mbind, Prog_bind.
  rewrite forEachM_import_app by done.
  rewrite forEachM_import_cons, createNameTable_import_step. simpl.
  by rewrite Hmissing.
Qed.

(** X5: with a registry that has a model file for every namespace, which
    is the registry as modelled here, [createNameTable] returns a table
    exactly when the model has an import list and the registry finds every
    [ImportType] of it.  It then throws nothing but the [TypeError] of a
    missing import list and the [Declaration ... not found] error of the
    first [ImportType], in declaration order, that the registry does not
    find.  (Where [getModelFile] gives no model file the code reads through
    [undefined]; the registry above has no such namespace.) *)
Theorem createNameTable_throws_only_for_imports
    (modelManager : ModelManager) (metaModel : Model) :
  ((exists table, (createNameTable modelManager metaModel).2 = Return table)
   <-> exists imps, imports metaModel = Some imps /\
                    forallb (importable modelManager) imps = true) /\
  (forall e, (createNameTable modelManager metaModel).2 = Throw e ->
     (imports metaModel = None /\ e = TypeError) \/
     (exists pre ns uri name post,
         imports metaModel = Some (pre ++ ImportType ns uri name :: post) /\
         forallb (importable modelManager) pre = true /\
         getLocalType (modelManager ns) name = false /\
         e = JsError ("Declaration " +:+ name +:+ " in namespace " +:+ ns
                        +:+ " not found"))).
Proof.
  destruct (imports metaModel) as [imps|] eqn:Himps.
  2:{ unfold createNameTable. rewrite Himps. simpl. split.
      - split; [by intros [? ?] | by intros (? & ? & ?)].
      - intros e [= <-]. by left. }
  destruct (forallb (importable modelManager) imps) eqn:Hok.
  - rewrite (createNameTable_ok _ _ imps) by done. simpl. split; [|done].
    split; [by exists imps | by eexists].
  - destruct (forallb_first_false _ _ Hok) as (pre & imp & post & -> & Hpre & Himp).
    destruct imp as [ns uri|ns uri name]; [done|]. simpl in Himp.
    rewrite (createNameTable_not_found _ _ pre ns uri name post) by done.
    simpl. split.
    + split; [by intros [? ?] | intros (imps' & [= <-] & Hok'); congruence].
    + intros e [= <-]. right. by exists pre, ns, uri, name, post.
Qed.

Lemma createNameTable_throws_only_for_imports_witness :
  exists pre ns uri name post,
    imports Sample.missingImportModel
    = Some (pre ++ ImportType ns uri name :: post) /\
    forallb (importable Sample.registry12) pre = true /\
    getLocalType (Sample.registry12 ns) name = false /\
    JsError "Declaration Missing in namespace NS2 not found"
    = JsError ("Declaration " +:+ name +:+ " in namespace " +:+ ns
                 +:+ " not found").
Proof.
  destruct (proj2 (createNameTable_throws_only_for_imports
                     Sample.registry12 Sample.missingImportModel)
              (JsError "Declaration Missing in namespace NS2 not found"))
    as [[Hnone _]|Hfound]; [reflexivity | discriminate Hnone | exact Hfound].
Defined.

Lemma builtinTable_lookup_None (x : string) :
  x ∉ seededKeys -> builtinTable !! x = None.
Proof.
  intros Hx. unfold builtinTable, seededKeys in *.
  repeat (rewrite lookup_insert_ne;
          [|intros <-; apply Hx; repeat (first [by left | right])]).
  apply lookup_empty.
Qed.

(** X6: a short name that is not a key of the seed, that no import brings
    in and that the model does not declare has no entry in the table.
    [resolveName] throws [Name <name> not found] on it, unless it names a
    property of [Object.prototype]: then [resolveName] returns the inherited
    value. *)
Theorem createNameTable_unbound_name
    (modelManager : ModelManager) (metaModel : Model)
    (imps : list Import) (x : string) :
  imports metaModel = Some imps ->
  forallb (importable modelManager) imps = true ->
  forallb (fun imp => negb (introduces modelManager imp x)) imps = true ->
  declaresLocally metaModel x = false ->
  x ∉ seededKeys ->
  exists table : NameTable,
    createNameTable modelManager metaModel = (modelManager, Return table) /\
    table !! x = None /\
    resolveName x table
    = if inherited x then Return (VInherited x)
      else Throw (JsError ("Name " +:+ x +:+ " not found")).
Proof.
  intros Himps Hok Himported Hlocal Hseed. eexists.
  split; [by apply createNameTable_ok|].
  assert (Hlookup :
    foldl (createNameTable_local (namespace metaModel))
          (foldl (importWrites modelManager) builtinTable imps)
          (locals metaModel) !! x = None).
  { destruct (decide (x = "__proto__")) as [->|Hne].
    - apply lookup_locals_proto. by apply lookup_imports_proto.
    - rewrite lookup_locals by done.
      unfold declaresLocally in Hlocal. rewrite Hlocal.
      rewrite lookup_imports_later by done.
      by apply builtinTable_lookup_None. }
  split; [done|]. unfold inherited. case_bool_decide as Hin.
  - apply resolveName_Return. split; [|done]. by apply tableGet_inherited.
  - apply resolveName_falsy, truthy_false. by right.
Qed.

Lemma createNameTable_unbound_name_witness :
  (exists table : NameTable,
      createNameTable Sample.registry12 Sample.overrideModel
      = (Sample.registry12, Return table) /\
      table !! "Transaction" = None /\
      resolveName "Transaction" table
      = Throw (JsError "Name Transaction not found")) /\
  (exists table : NameTable,
      createNameTable Sample.registry12 Sample.overrideModel
      = (Sample.registry12, Return table) /\
      table !! "constructor" = None /\
      resolveName "constructor" table = Return (VInherited "constructor")).
Proof.
  split.
  - destruct (createNameTable_unbound_name
                Sample.registry12 Sample.overrideModel
                [ImportAll "NS1" None; ImportType "NS2" None "Foo"]
                "Transaction")
      as (table & Htable & Hown & Hread); try reflexivity.
    + apply (bool_decide_unpack ("Transaction" ∉ seededKeys)).
      vm_compute. exact I.
    + exists table. split; [exact Htable|]. split; [exact Hown|exact Hread].
  - destruct (createNameTable_unbound_name
                Sample.registry12 Sample.overrideModel
                [ImportAll "NS1" None; ImportType "NS2" None "Foo"]
                "constructor")
      as (table & Htable & Hown & Hread); try reflexivity.
    + apply (bool_decide_unpack ("constructor" ∉ seededKeys)).
      vm_compute. exact I.
    + exists table. split; [exact Htable|]. split; [exact Hown|exact Hread].
Defined.

Lemma foldl_createNameTable_local ns table decls decls' :
  map decl_name decls = map decl_name decls' ->
  foldl (createNameTable_local ns) table decls
  = foldl (createNameTable_local ns) table decls'.
Proof.
  revert table decls'. induction decls as [|d decls IH]; intros table [|d' decls'];
    simpl; try done.
  intros [= Hname Hrest]. unfold createNameTable_local at 2 4.
  rewrite Hname. by apply IH.
Qed.

Lemma leaves_decl_name table :
  leaves (resolveTypeNames_Declaration table) decl_name.
Proof.
  intros d. pose proof (leaves_Erase_Declaration table d) as Herase.
  destruct (after (resolveTypeNames_Declaration table d)) as [d1|d1], d as [d0|d0];
    simpl in *; by simplify_eq.
Qed.

Lemma createNameTable_after_walk
    (modelManager : ModelManager) (metaModel : Model) (table : NameTable) :
  createNameTable modelManager (after (resolveTypeNames_Model table metaModel))
  = createNameTable modelManager metaModel.
Proof.
  unfold resolveTypeNames_Model. rewrite seq_enter. unfold Mut.field. simpl.
  unfold createNameTable. simpl.
  destruct (imports metaModel) as [imps|]; [|done].
  unfold mbind, Prog_bind.
  destruct (forEachM createNameTable_import imps builtinTable modelManager)
    as [mm [t|e]]; [|done].
  destruct (declarations metaModel) as [decls|]; simpl; [|done].
  rewrite (foldl_createNameTable_local (namespace metaModel) t _ decls); [done|].
  apply (leaves_forEach _ decl_name), leaves_decl_name.
Qed.

(** X7: the name table of a model does not depend on its namespaces: the
    model [resolveTypeNames] leaves, whether it returned or threw and
    whatever table it was given, gets from [createNameTable] the result the
    model it was given gets. *)
Theorem createNameTable_after_resolveTypeNames
    (modelManager : ModelManager) (metaModel metaModel' : Model)
    (table : NameTable) :
  after (resolveTypeNames (NModel metaModel) table) = NModel metaModel' ->
  createNameTable modelManager metaModel'
  = createNameTable modelManager metaModel.
Proof.
  intros [= <-]. apply createNameTable_after_walk.
Qed.

Lemma createNameTable_after_resolveTypeNames_witness :
  let resolved := after (resolveTypeNames_Model builtinTable Sample.shadowModel) in
  resolved ≠ Sample.shadowModel /\
  createNameTable Sample.registry12 resolved
  = createNameTable Sample.registry12 Sample.shadowModel.
Proof.
  split; [discriminate|].
  apply (createNameTable_after_resolveTypeNames Sample.registry12
           Sample.shadowModel _ builtinTable).
  reflexivity.
Defined.

(** ** [resolveMetaModel]: what it returns, what it throws *)

Lemma resolveCopy_Model (w0 : World) (mm : loc) (m : Model) :
  heap w0 !! mm = Some (NModel m) ->
  resolveCopy mm w0
  = match (createNameTable (registry w0) m).2 with
    | Throw e =>
        (set_heap (<[fresh (dom (heap w0)) := NModel m]> (heap w0)) w0, Throw e)
    | Return table =>
        (set_heap (<[fresh (dom (heap w0))
                     := after (resolveTypeNames (NModel m) table)]> (heap w0)) w0,
         match thrown (resolveTypeNames (NModel m) table) with
         | Some e => Throw e
         | None => Return (fresh (dom (heap w0)))
         end)
    end.
Proof.
  intros Hmm.
  pose proof (fresh_ne (heap w0) mm _ Hmm) as Hne.
  unfold resolveCopy.
  rewrite (bind_Return _ _ _ _ _ (JSON_clone_spec _ _ _ Hmm)).
  set (result := fresh (dom (heap w0))) in *.
  set (w1 := set_heap (<[result := NModel m]> (heap w0)) w0).
  assert (Hmm1 : heap w1 !! mm = Some (NModel m))
    by (simpl; by rewrite lookup_insert_ne).
  pose proof (createNameTable_at_spec w1 mm _ Hmm1) as Htable.
  change (registry w1) with (registry w0) in Htable.
  destruct ((createNameTable (registry w0) m).2) as [table|e].
  2:{ by rewrite (bind_Throw _ _ _ _ _ Htable). }
  rewrite (bind_Return _ _ _ _ _ Htable).
  assert (Hres1 : heap w1 !! result = Some (NModel m))
    by (simpl; by rewrite lookup_insert_eq).
  pose proof (resolveTypeNames_at_spec w1 result _ table Hres1) as Hwalk.
  assert (Hw : set_heap (<[result := after (resolveTypeNames (NModel m) table)]>
                           (heap w1)) w1
               = set_heap (<[result := after (resolveTypeNames (NModel m) table)]>
                             (heap w0)) w0).
  { unfold w1, set_heap. simpl. by rewrite insert_insert_eq. }
  rewrite Hw in Hwalk.
  destruct (thrown (resolveTypeNames (NModel m) table)) as [e|].
  - by rewrite (bind_Throw _ _ _ _ _ Hwalk).
  - by rewrite (bind_Return _ _ _ _ _ Hwalk).
Qed.

Lemma resolveCopy_not_Model (w0 : World) (mm : loc) (n : Node) :
  heap w0 !! mm = Some n ->
  (forall m, n ≠ NModel m) ->
  (resolveCopy mm w0).2 = Throw TypeError.
Proof.
  intros Hmm Hnot.
  pose proof (fresh_ne (heap w0) mm _ Hmm) as Hne.
  unfold resolveCopy.
  rewrite (bind_Return _ _ _ _ _ (JSON_clone_spec _ _ _ Hmm)).
  set (w1 := set_heap _ w0).
  assert (Hmm1 : heap w1 !! mm = Some n)
    by (simpl; by rewrite lookup_insert_ne).
  pose proof (createNameTable_at_spec w1 mm _ Hmm1) as Htable.
  destruct n; try (by rewrite (bind_Throw _ _ _ _ _ Htable)).
  by destruct (Hnot m).
Qed.

Lemma resolveMetaModel_false v modelManager h metaModel :
  resolveMetaModel v modelManager h metaModel false
  = resolveCopy metaModel {| registry := modelManager; heap := h |}.
Proof.
  rewrite resolveMetaModel_unfold.
  by rewrite (bind_Return _ _ _ {| registry := modelManager; heap := h |} metaModel).
Qed.

Lemma thrown_Model table m :
  thrown (resolveTypeNames (NModel m) table) = firstError table (Reached.model m).
Proof. apply (annotates_Model table m). Qed.

(** X8: [resolveMetaModel] throws, in this order of precedence, the error of
    the validator (when [validate] is set), a [TypeError] when the working
    object is not a [Model], the error of [createNameTable], and the
    [Name ... not found] error of the first type identifier of the model
    that the table rejects; it returns exactly when none of these applies. *)
Theorem resolveMetaModel_outcome
    (v : Node -> Result Node) (modelManager : ModelManager)
    (h : gmap loc Node) (metaModel : loc) (validate : bool) (input : Node) :
  h !! metaModel = Some input ->
  let r := (resolveMetaModel v modelManager h metaModel validate).2 in
  match (if validate then v input else Return input) with
  | Throw e => r = Throw e
  | Return (NModel m) =>
      match (createNameTable modelManager m).2 with
      | Throw e => r = Throw e
      | Return table =>
          match firstError table (Reached.model m) with
          | Some e => r = Throw e
          | None => exists result, r = Return result
          end
      end
  | Return _ => r = Throw TypeError
  end.
Proof.
  intros Hin.
  assert (Hcopy : forall (w0 : World) (mm : loc) (working : Node),
            registry w0 = modelManager ->
            heap w0 !! mm = Some working ->
            match working with
            | NModel m =>
                match (createNameTable modelManager m).2 with
                | Throw e => (resolveCopy mm w0).2 = Throw e
                | Return table =>
                    match firstError table (Reached.model m) with
                    | Some e => (resolveCopy mm w0).2 = Throw e
                    | None => exists result, (resolveCopy mm w0).2 = Return result
                    end
                end
            | _ => (resolveCopy mm w0).2 = Throw TypeError
            end).
  { intros w0 mm working <- Hmm.
    destruct working as [ms|m|i|d|p|p|d|l|t];
      try (by apply (resolveCopy_not_Model w0 mm _ Hmm)).
    rewrite (resolveCopy_Model w0 mm m Hmm).
    destruct ((createNameTable (registry w0) m).2) as [table|e]; [|done].
    rewrite <- thrown_Model.
    destruct (thrown (resolveTypeNames (NModel m) table)); [done | by eexists]. }
  destruct validate; simpl.
  - rewrite resolveMetaModel_unfold.
    set (w0 := {| registry := modelManager; heap := h |}).
    pose proof (validateMetaModel_at_spec v w0 metaModel input Hin) as Hvalidate.
    destruct (v input) as [working|e].
    2:{ by rewrite (bind_Throw _ _ _ _ _ Hvalidate). }
    rewrite (bind_Return _ _ _ _ _ Hvalidate).
    apply Hcopy; [done|]. simpl. apply lookup_insert_eq.
  - rewrite resolveMetaModel_false. by apply Hcopy.
Qed.

Lemma resolveMetaModel_outcome_witness :
  (resolveMetaModel Sample.acceptAll Sample.registry12
     SampleExport.heap3 1%positive false).2
  = Throw (JsError "Name Nowhere not found") /\
  (resolveMetaModel (fun _ => Throw (JsError "invalid")) Sample.registry12
     SampleExport.heap3 1%positive true).2
  = Throw (JsError "invalid").
Proof.
  split.
  - exact (resolveMetaModel_outcome Sample.acceptAll Sample.registry12
             SampleExport.heap3 1%positive false
             (NModel SampleExport.mixedModel) eq_refl).
  - exact (resolveMetaModel_outcome (fun _ => Throw (JsError "invalid"))
             Sample.registry12 SampleExport.heap3 1%positive true
             (NModel SampleExport.mixedModel) eq_refl).
Defined.

Lemma resolveMetaModel_false_Return v modelManager h metaModel m result :
  h !! metaModel = Some (NModel m) ->
  (resolveMetaModel v modelManager h metaModel false).2 = Return result ->
  exists table,
    createNameTable modelManager m = (modelManager, Return table) /\
    thrown (resolveTypeNames_Model table m) = None /\
    result = fresh (dom h) /\
    (resolveMetaModel v modelManager h metaModel false).1
    = {| registry := modelManager;
         heap := <[fresh (dom h) := NModel (after (resolveTypeNames_Model table m))]> h |}.
Proof.
  intros Hin. rewrite resolveMetaModel_false.
  rewrite (resolveCopy_Model {| registry := modelManager; heap := h |}
             metaModel m Hin). cbn [registry heap].
  pose proof (createNameTable_registry modelManager m) as Hreg.
  destruct (createNameTable modelManager m) as [reg [table|e]];
    cbn [fst snd] in *; subst reg; [|done].
  unfold resolveTypeNames, Mut.under. cbn [after thrown fst snd].
  destruct (thrown (resolveTypeNames_Model table m)) eqn:Hthrown; [done|].
  intros [= <-]. by exists table.
Qed.

(** X9: when [resolveMetaModel] returns without validation, the object it
    returns is a model that differs from the argument in its namespaces
    only, and every type identifier a walk comes to in it carries the
    truthy value that the name table of the argument reads under its name:
    the non-empty entry of the table, or the value inherited from
    [Object.prototype] where the table has no entry (as for a type named
    [__proto__], which the table never stores). *)
Theorem resolveMetaModel_result_resolved
    (v : Node -> Result Node) (modelManager : ModelManager)
    (h : gmap loc Node) (metaModel : loc) (m : Model) (result : loc) :
  h !! metaModel = Some (NModel m) ->
  (resolveMetaModel v modelManager h metaModel false).2 = Return result ->
  exists (m' : Model) (table : NameTable),
    heap (resolveMetaModel v modelManager h metaModel false).1 !! result
    = Some (NModel m') /\
    createNameTable modelManager m = (modelManager, Return table) /\
    Erase.model m' = Erase.model m /\
    map ti_name (Reached.model m') = map ti_name (Reached.model m) /\
    Forall (resolvedBy table) (Reached.model m').
Proof.
  intros Hin Hreturn.
  destruct (resolveMetaModel_false_Return v _ _ _ _ _ Hin Hreturn)
    as (table & Htable & Hthrown & -> & ->).
  exists (after (resolveTypeNames_Model table m)), table. cbn [heap].
  split; [apply lookup_insert_eq|]. split; [done|].
  split; [apply leaves_Erase_Model|].
  destruct (annotates_Model table m) as [Hafter Hfirst].
  rewrite Hafter. split; [apply annotate_names|].
  apply annotate_resolvedBy. by rewrite <- Hfirst.
Qed.

Lemma resolveMetaModel_result_resolved_witness :
  exists (m' : Model) (table : NameTable),
    heap (resolveMetaModel Sample.acceptAll Sample.registry12
            Sample.heap1 1%positive false).1 !! 2%positive
    = Some (NModel m') /\
    createNameTable Sample.registry12 Sample.shadowModel
    = (Sample.registry12, Return table) /\
    Erase.model m' = Erase.model Sample.shadowModel /\
    map ti_name (Reached.model m') = map ti_name (Reached.model Sample.shadowModel) /\
    Forall (resolvedBy table) (Reached.model m').
Proof.
  apply (resolveMetaModel_result_resolved Sample.acceptAll Sample.registry12
           Sample.heap1 1%positive Sample.shadowModel 2%positive);
    reflexivity.
Defined.

(** X10: resolving the model [resolveMetaModel] returned gives again a new
    object, equal to the one resolved, which is left as it is. *)
Theorem resolveMetaModel_again
    (v : Node -> Result Node) (modelManager : ModelManager)
    (h : gmap loc Node) (metaModel : loc) (m : Model) (result : loc) :
  h !! metaModel = Some (NModel m) ->
  (resolveMetaModel v modelManager h metaModel false).2 = Return result ->
  let w := (resolveMetaModel v modelManager h metaModel false).1 in
  let again := resolveMetaModel v modelManager (heap w) result false in
  exists result',
    again.2 = Return result' /\
    result' ≠ result /\
    heap again.1 !! result' = heap w !! result /\
    heap again.1 !! result = heap w !! result.
Proof.
  intros Hin Hreturn.
  destruct (resolveMetaModel_false_Return v _ _ _ _ _ Hin Hreturn)
    as (table & Htable & Hthrown & -> & ->).
  cbn [heap]. set (m1 := after (resolveTypeNames_Model table m)).
  set (h1 := <[fresh (dom h) := NModel m1]> h).
  assert (Hin1 : h1 !! fresh (dom h) = Some (NModel m1)) by apply lookup_insert_eq.
  rewrite resolveMetaModel_false.
  rewrite (resolveCopy_Model {| registry := modelManager; heap := h1 |}
             _ m1 Hin1). cbn [registry heap].
  assert (Htable1 : createNameTable modelManager m1 = (modelManager, Return table))
    by (unfold m1; by rewrite createNameTable_after_walk).
  rewrite Htable1. cbn [fst snd].
  unfold resolveTypeNames, Mut.under. cbn [after thrown fst snd].
  destruct (idempotent_Model table m Hthrown) as [Hthrown1 Hafter1].
  fold m1 in Hthrown1, Hafter1. rewrite Hthrown1, Hafter1.
  exists (fresh (dom h1)). split; [done|].
  pose proof (fresh_ne h1 _ _ Hin1) as Hne. split; [done|].
  cbn [heap set_heap]. rewrite lookup_insert_eq.
  by rewrite lookup_insert_ne.
Qed.

Lemma resolveMetaModel_again_witness :
  let w := (resolveMetaModel Sample.acceptAll Sample.registry12
              Sample.heap1 1%positive false).1 in
  let again := resolveMetaModel Sample.acceptAll Sample.registry12
                 (heap w) 2%positive false in
  exists result',
    again.2 = Return result' /\
    result' ≠ 2%positive /\
    heap again.1 !! result' = heap w !! 2%positive /\
    heap again.1 !! 2%positive = heap w !! 2%positive.
Proof.
  apply (resolveMetaModel_again Sample.acceptAll Sample.registry12
           Sample.heap1 1%positive Sample.shadowModel 2%positive);
    reflexivity.
Defined.

(** ** [modelManagerToMetaModel] *)

Section ExportProofs.

Variable v : Node -> Result Node.
Variable getModelFiles : ModelManager -> list loc.

Lemma resolveMetaModel_call_false (ast : loc) (w : World) :
  resolveMetaModel_call v ast false w = resolveCopy ast w.
Proof.
  unfold resolveMetaModel_call. rewrite resolveMetaModel_false. by destruct w.
Qed.

Lemma forEachM_file_unresolved (asts models : list loc) (w : World) :
  forEachM (modelManagerToMetaModel_file v false) asts models w
  = (w, Return (models ++ asts)).
Proof.
  revert models. induction asts as [|ast asts IH]; intros models; simpl.
  - by rewrite app_nil_r.
  - unfold mbind at 1. unfold Prog_bind at 1.
    unfold modelManagerToMetaModel_file, mbind, Prog_bind, mret, Prog_ret.
    rewrite IH. by rewrite <- app_assoc.
Qed.

Lemma Forall2_with_l {A B} (P : A -> Prop) (Q : A -> B -> Prop) l k :
  Forall P l -> Forall2 Q l k -> Forall2 (fun a b => P a /\ Q a b) l k.
Proof.
  intros HP HQ. induction HQ as [|a b l k Hab HQ IH]; [constructor|].
  apply Forall_cons in HP as [Ha HP]. constructor; [done | by apply IH].
Qed.

Lemma forEachM_file_resolved (asts models : list loc) (w0 w : World)
    (r : Result (list loc)) :
  Forall (fun ast => ast ∈ dom (heap w0)) asts ->
  forEachM (modelManagerToMetaModel_file v true) asts models w0 = (w, r) ->
  (forall l, l ∈ dom (heap w0) -> heap w !! l = heap w0 !! l) /\
  registry w = registry w0 /\
  (forall out, r = Return out ->
     exists results,
       out = models ++ results /\ NoDup results /\
       Forall2 (exportedFrom w0 w) asts results).
Proof.
  revert models w0. induction asts as [|ast asts IH]; intros models w0 Hasts.
  { intros [= <- <-]. split; [done|]. split; [done|].
    intros out [= <-]. exists []. rewrite app_nil_r.
    split; [done|]. split; constructor. }
  apply Forall_cons in Hasts as [Hast Hasts].
  apply elem_of_dom in Hast as [working Hworking].
  pose proof (resolveCopy_spec w0 ast working Hworking) as (Hframe & Hreg & Hret).
  cbn [forEachM]. unfold mbind at 1. unfold Prog_bind at 1.
  unfold modelManagerToMetaModel_file at 1.
  unfold mbind at 1. unfold Prog_bind at 1.
  rewrite resolveMetaModel_call_false.
  destruct (resolveCopy ast w0) as [w1 [result|e]] eqn:Hcopy; cbn [fst snd] in *.
  2:{ intros [= <- <-]. split; [done|]. split; [done|]. done. }
  unfold mret at 1. unfold Prog_ret at 1.
  destruct (Hret result eq_refl)
    as (Hfresh & m & table & -> & Htable & Hthrown & Hresult).
  assert (Hdom : forall l, l ∈ dom (heap w0) -> l ∈ dom (heap w1)).
  { intros l Hl. apply elem_of_dom. rewrite Hframe by done. by apply elem_of_dom. }
  assert (Hasts1 : Forall (fun ast => ast ∈ dom (heap w1)) asts).
  { eapply Forall_impl; [exact Hasts|]. intros l Hl. by apply Hdom. }
  intros Hrest.
  destruct (IH (models ++ [result]) w1 Hasts1 Hrest) as (Hframe1 & Hreg1 & Hret1).
  split; [|split].
  - intros l Hl. rewrite Hframe1 by by apply Hdom. by apply Hframe.
  - by rewrite Hreg1.
  - intros out Hout.
    destruct (Hret1 out Hout) as (results & -> & Hnodup & Hall).
    exists (result :: results). split; [by rewrite <- app_assoc|].
    assert (Hresult1 : result ∈ dom (heap w1)).
    { apply elem_of_dom. by rewrite Hresult. }
    split.
    + constructor; [|done]. intros [i Hi]%list_elem_of_lookup.
      destruct (Forall2_lookup_r _ _ _ i result Hall Hi)
        as (ast' & _ & Hnone & _).
      apply elem_of_dom in Hresult1 as [n Hn]. congruence.
    + constructor.
      * split; [done|]. exists m, table. repeat split; try done.
        by rewrite Hframe1.
      * apply (Forall2_with_l _ _ _ _ Hasts) in Hall.
        eapply Forall2_impl; [exact Hall|].
        intros ast' result'
          (Hast' & Hnone & m' & table' & Hlook' & Htable' & Hthrown' & Hres').
        split.
        -- destruct (heap w0 !! result') as [n|] eqn:Hlook; [|done].
           assert (result' ∈ dom (heap w0)) as Hd by (apply elem_of_dom; by exists n).
           rewrite <- (Hframe _ Hd) in Hlook. congruence.
        -- exists m', table'. rewrite Hreg in Htable'.
           rewrite (Hframe _ Hast') in Hlook'. done.
Qed.

(** X11: without [resolve], [modelManagerToMetaModel] returns the [ast]
    objects of the registry themselves, in the registry's order, not copies
    of them, and changes neither the heap nor the registry; the [validate]
    flag plays no part. *)
Theorem modelManagerToMetaModel_unresolved
    (modelManager : ModelManager) (h : gmap loc Node) (validate : bool) :
  modelManagerToMetaModel v getModelFiles modelManager h false validate
  = ({| registry := modelManager; heap := h |},
     Return (getModelFiles modelManager)).
Proof. apply forEachM_file_unresolved. Qed.

(** X12: with [resolve], whether the export returns or throws, every object
    that was in the heap, the [ast]s among them, and the registry are as
    they were.  When it returns, it returns one model per model file, in
    order; they are new, pairwise distinct objects, each holding the [ast]
    of its model file as [resolveTypeNames] left it with the name table of
    that [ast]. *)
Theorem modelManagerToMetaModel_resolved
    (modelManager : ModelManager) (h : gmap loc Node) (validate : bool) :
  Forall (fun ast => ast ∈ dom h) (getModelFiles modelManager) ->
  let w0 := {| registry := modelManager; heap := h |} in
  let export := modelManagerToMetaModel v getModelFiles modelManager h true validate in
  (forall l, l ∈ dom h -> heap export.1 !! l = h !! l) /\
  registry export.1 = modelManager /\
  (forall models, export.2 = Return models ->
     length models = length (getModelFiles modelManager) /\
     NoDup models /\
     Forall2 (exportedFrom w0 export.1) (getModelFiles modelManager) models).
Proof.
  intros Hasts w0 export.
  destruct export as [w r] eqn:Hexport. unfold export in Hexport.
  destruct (forEachM_file_resolved _ [] w0 w r Hasts Hexport)
    as (Hframe & Hreg & Hret).
  split; [done|]. split; [done|].
  intros models Hmodels.
  destruct (Hret models Hmodels) as (results & -> & Hnodup & Hall).
  split; [|done]. symmetry. by apply (Forall2_length _ _ _ Hall).
Qed.

End ExportProofs.

Lemma modelManagerToMetaModel_resolved_witness :
  let export := modelManagerToMetaModel Sample.acceptAll SampleExport.twoFiles
                  Sample.registry12 SampleExport.heap2 true true in
  export.2 = Return [3%positive; 4%positive] /\
  (forall l, l ∈ dom SampleExport.heap2 ->
             heap export.1 !! l = SampleExport.heap2 !! l).
Proof.
  split; [reflexivity|].
  apply (modelManagerToMetaModel_resolved Sample.acceptAll SampleExport.twoFiles
           Sample.registry12 SampleExport.heap2 true).
  repeat constructor; apply elem_of_dom; by eexists.
Defined.

(** ** [modelManagerToMetaModel]: when it throws *)

Lemma resolveCopy_result (w : World) (mm : loc) (n : Node) :
  heap w !! mm = Some n ->
  (resolveCopy mm w).2
  = match resolveError (registry w) n with
    | Some e => Throw e
    | None => Return (fresh (dom (heap w)))
    end.
Proof.
  intros Hmm. destruct n as [ms|m|i|d|p|p|d|l|t];
    try (by apply (resolveCopy_not_Model w mm _ Hmm)).
  rewrite (resolveCopy_Model w mm m Hmm). unfold resolveError.
  by destruct ((createNameTable (registry w) m).2).
Qed.

Section ExportErrors.

Variable v : Node -> Result Node.
Variable getModelFiles : ModelManager -> list loc.

Lemma forEachM_file_result (asts models : list loc) (w0 w : World)
    (r : Result (list loc)) :
  Forall (fun ast => ast ∈ dom (heap w0)) asts ->
  forEachM (modelManagerToMetaModel_file v true) asts models w0 = (w, r) ->
  match r with
  | Return _ => Forall (resolvesAt w0) asts
  | Throw e =>
      exists pre ast post n,
        asts = pre ++ ast :: post /\ Forall (resolvesAt w0) pre /\
        heap w0 !! ast = Some n /\ resolveError (registry w0) n = Some e
  end.
Proof.
  revert models w0. induction asts as [|ast asts IH]; intros models w0 Hasts.
  { intros [= <- <-]. constructor. }
  apply Forall_cons in Hasts as [Hast Hasts].
  apply elem_of_dom in Hast as [n Hn].
  pose proof (resolveCopy_spec w0 ast n Hn) as (Hframe & Hreg & _).
  pose proof (resolveCopy_result w0 ast n Hn) as Hresult.
  cbn [forEachM]. unfold mbind at 1. unfold Prog_bind at 1.
  unfold modelManagerToMetaModel_file at 1.
  unfold mbind at 1. unfold Prog_bind at 1.
  rewrite resolveMetaModel_call_false.
  destruct (resolveCopy ast w0) as [w1 r1] eqn:Hcopy; cbn [fst snd] in *.
  destruct (resolveError (registry w0) n) as [e|] eqn:Herror; subst r1.
  { intros [= <- <-]. by exists [], ast, asts, n. }
  unfold mret at 1. unfold Prog_ret at 1.
  assert (Hasts1 : Forall (fun ast => ast ∈ dom (heap w1)) asts).
  { eapply Forall_impl; [exact Hasts|]. intros l Hl.
    apply elem_of_dom. rewrite Hframe by done. by apply elem_of_dom. }
  assert (Hback : forall a, a ∈ dom (heap w0) -> resolvesAt w1 a -> resolvesAt w0 a).
  { intros a Ha (n' & Hlook & Hnone). exists n'.
    rewrite Hframe in Hlook by done. by rewrite <- Hreg. }
  intros Hrest. specialize (IH _ w1 Hasts1 Hrest).
  destruct r as [out|e].
  - constructor; [by exists n|].
    apply Forall_forall. intros a Ha.
    apply Hback; [by apply (proj1 (Forall_forall _ _) Hasts)|].
    by apply (proj1 (Forall_forall _ _) IH).
  - destruct IH as (pre & ast' & post & n' & -> & Hpre & Hlook & Herr).
    apply Forall_app in Hasts as [Hpre0 [Hast0 _]%Forall_cons].
    exists (ast :: pre), ast', post, n'. split; [done|].
    split; [|split].
    + constructor; [by exists n|].
      apply Forall_forall. intros a Ha.
      apply Hback; [by apply (proj1 (Forall_forall _ _) Hpre0)|].
      by apply (proj1 (Forall_forall _ _) Hpre).
    + by rewrite <- (Hframe _ Hast0).
    + by rewrite <- Hreg.
Qed.

Lemma resolveMetaModel_false_result modelManager h ast n :
  h !! ast = Some n ->
  (resolveMetaModel v modelManager h ast false).2
  = match resolveError modelManager n with
    | Some e => Throw e
    | None => Return (fresh (dom h))
    end.
Proof.
  intros Hast. rewrite resolveMetaModel_false.
  by rewrite (resolveCopy_result {| registry := modelManager; heap := h |} ast n).
Qed.

(** X13: with [resolve], the export returns exactly when each model file's
    [ast] resolves on its own from the initial state; otherwise it throws
    the error of the first [ast], in the registry's order, that does not,
    and no model is returned. *)
Theorem modelManagerToMetaModel_throws_first_failure
    (modelManager : ModelManager) (h : gmap loc Node) (validate : bool) :
  Forall (fun ast => ast ∈ dom h) (getModelFiles modelManager) ->
  let export := modelManagerToMetaModel v getModelFiles modelManager h true validate in
  let resolves := fun ast =>
    exists result, (resolveMetaModel v modelManager h ast false).2 = Return result in
  ((exists models, export.2 = Return models)
   <-> Forall resolves (getModelFiles modelManager)) /\
  (forall e, export.2 = Throw e ->
     exists pre ast post,
       getModelFiles modelManager = pre ++ ast :: post /\
       Forall resolves pre /\
       (resolveMetaModel v modelManager h ast false).2 = Throw e).
Proof.
  intros Hasts export resolves.
  set (w0 := {| registry := modelManager; heap := h |}).
  assert (Hresolves : forall ast, resolvesAt w0 ast -> resolves ast).
  { intros ast (n & Hlook & Hnone). exists (fresh (dom h)).
    cbn [registry heap w0] in Hlook, Hnone.
    by rewrite (resolveMetaModel_false_result _ _ _ n Hlook), Hnone. }
  assert (Hthrows : forall ast n e,
            h !! ast = Some n -> resolveError modelManager n = Some e ->
            (resolveMetaModel v modelManager h ast false).2 = Throw e).
  { intros ast n e Hlook Herr.
    by rewrite (resolveMetaModel_false_result _ _ _ n Hlook), Herr. }
  destruct export as [w r] eqn:Hexport. unfold export in Hexport.
  pose proof (forEachM_file_result _ [] w0 w r Hasts Hexport) as Hresult.
  cbn [snd]. destruct r as [models|e].
  - split; [|done]. split; [|by eexists].
    intros _. eapply Forall_impl; [exact Hresult | exact Hresolves].
  - destruct Hresult as (pre & ast & post & n & Heq & Hpre & Hlook & Herr).
    cbn [registry heap w0] in Hlook, Herr. split.
    + split; [by intros [? ?]|]. intros Hall. exfalso.
      rewrite Heq in Hall.
      apply Forall_app in Hall as [_ [[result Hreturn] _]%Forall_cons].
      by rewrite (Hthrows ast n e) in Hreturn.
    + intros e' [= <-]. exists pre, ast, post. split; [done|]. split.
      * eapply Forall_impl; [exact Hpre | exact Hresolves].
      * by apply (Hthrows ast n).
Qed.

End ExportErrors.

Lemma modelManagerToMetaModel_throws_first_failure_witness :
  (modelManagerToMetaModel Sample.acceptAll SampleExport.twoFiles
     Sample.registry12 SampleExport.heap4 true true).2
  = Throw (JsError "Name Nowhere not found") /\
  exists pre ast post,
    SampleExport.twoFiles Sample.registry12 = pre ++ ast :: post /\
    Forall (fun ast =>
              exists result,
                (resolveMetaModel Sample.acceptAll Sample.registry12
                   SampleExport.heap4 ast false).2 = Return result) pre /\
    (resolveMetaModel Sample.acceptAll Sample.registry12
       SampleExport.heap4 ast false).2
    = Throw (JsError "Name Nowhere not found").
Proof.
  split; [reflexivity|].
  apply (modelManagerToMetaModel_throws_first_failure Sample.acceptAll
           SampleExport.twoFiles Sample.registry12 SampleExport.heap4 true).
  - repeat constructor; apply elem_of_dom; by eexists.
  - reflexivity.
Defined.
